(** * ToolSafetyWrapper: the safe tool-execution gate

    A shallow embedding of [src/agents/xagent/tools/safety_wrapper.py] and
    the properties of its execution gate: input screening, bounded
    invocation, outcome capture, the rolling execution history and the
    queries over it.

    Python objects are known to the wrapper only through what [repr()] and
    [str()] do on them, both of which may raise; the wrapper itself is an
    object with mutable fields, called in a world that holds the logging
    sink, the clock and the tools.  Methods are therefore functions in a
    state-and-exception monad over that world. *)

From stdpp Require Import gmap strings pretty list.
From Stdlib Require Import QArith.

Local Open Scope Z_scope.

(** ** Strings: the operations of [str] the wrapper uses *)

Module Str.

(** [pat in s] on Python strings. *)
Fixpoint contains (pat s : string) : bool :=
  String.prefix pat s ||
  match s with
  | EmptyString => false
  | String _ s' => contains pat s'
  end.

(** [s[:n]]: the first [n] characters.  A character here is one of the
    Rocq string, which for ASCII text is one of the Python string. *)
Fixpoint take (n : nat) (s : string) : string :=
  match n, s with
  | S n', String c s' => String c (take n' s')
  | _, _ => EmptyString
  end.

(** [sep.join(parts)]. *)
Fixpoint join (sep : string) (parts : list string) : string :=
  match parts with
  | [] => ""
  | [p] => p
  | p :: rest => p +:+ sep +:+ join sep rest
  end.

End Str.

(** ** Exceptions and outcomes *)

(** An instance of [Exception], known by its [str(e)].  The handlers of the
    wrapper are all [except Exception]; what is not an [Exception]
    ([KeyboardInterrupt], [SystemExit]) is outside this model. *)
Record fault := Fault { fault_str : string }.

Inductive outcome (A : Type) : Type :=
| Ret (a : A)
| Raise (e : fault).
Arguments Ret {A} a.
Arguments Raise {A} e.

Definition is_raise {A} (o : outcome A) : bool :=
  match o with Ret _ => false | Raise _ => true end.

(** ** Python values *)

(** The values that tools take and return: integers, strings, and any
    other object, given by the outcome of [repr()] and of [str()] on it. *)
Inductive value :=
| VInt (n : Z)
| VStr (s : string)
| VObj (obj_repr obj_str : outcome string).

Definition kwargs_t := list (string * value).

(** ** The Python runtime under the wrapper

    What the wrapper takes from the interpreter and its library and does
    not define itself: floats with the arithmetic used on them, the clock
    behind [time.time()], and [repr] on [str]. *)
Class Runtime := {
  time : Type;                        (* float *)
  clock : nat → time;                 (* the n-th reading of time.time() *)
  time_sub : time → time → time;      (* t1 - t2 *)
  time_int : time → Z;                (* int(t) *)
  time_fmt2 : time → string;          (* f"{t:.2f}" *)
  time_sum : list time → time;        (* sum(ts) *)
  time_div : time → nat → time;       (* t / n *)
  int_div : nat → nat → time;         (* n / m on ints, a float *)
  repr_str : string → string          (* repr(s), quoted and escaped *)
}.

(** [l[i:]] on a Python list, for any integer [i]: a negative index counts
    from the end, and both ends are clipped to the list. *)
Definition slice_from {A} (i : Z) (l : list A) : list A :=
  let n := Z.of_nat (length l) in
  let start := if i <? 0 then Z.max (i + n) 0 else Z.min i n in
  drop (Z.to_nat start) l.

Section Wrapper.
Context `{RT : Runtime}.

(** *** Rendering *)

Definition py_repr (v : value) : outcome string :=
  match v with
  | VInt n => Ret (pretty n)
  | VStr s => Ret (repr_str s)
  | VObj r _ => r
  end.

Definition py_str (v : value) : outcome string :=
  match v with
  | VInt n => Ret (pretty n)
  | VStr s => Ret s
  | VObj _ s => s
  end.

(** [repr] of each element, left to right, stopping at the first that
    raises. *)
Fixpoint repr_all (vs : list value) : outcome (list string) :=
  match vs with
  | [] => Ret []
  | v :: vs' =>
      match py_repr v with
      | Raise e => Raise e
      | Ret s =>
          match repr_all vs' with
          | Raise e => Raise e
          | Ret ss => Ret (s :: ss)
          end
      end
  end.

(** [str(args)] for the tuple of positional arguments. *)
Definition str_tuple (args : list value) : outcome string :=
  match repr_all args with
  | Raise e => Raise e
  | Ret [s] => Ret ("(" +:+ s +:+ ",)")
  | Ret ss => Ret ("(" +:+ Str.join ", " ss +:+ ")")
  end.

Fixpoint repr_items (kw : kwargs_t) : outcome (list string) :=
  match kw with
  | [] => Ret []
  | (k, v) :: kw' =>
      match py_repr v with
      | Raise e => Raise e
      | Ret s =>
          match repr_items kw' with
          | Raise e => Raise e
          | Ret ss => Ret ((repr_str k +:+ ": " +:+ s) :: ss)
          end
      end
  end.

(** [str(kwargs)] for the dict of keyword arguments, in insertion order. *)
Definition str_dict (kw : kwargs_t) : outcome string :=
  match repr_items kw with
  | Raise e => Raise e
  | Ret ss => Ret ("{" +:+ Str.join ", " ss +:+ "}")
  end.

(** [str(args) + str(kwargs)], the text that is screened. *)
Definition input_str (args : list value) (kw : kwargs_t) : outcome string :=
  match str_tuple args with
  | Raise e => Raise e
  | Ret a =>
      match str_dict kw with
      | Raise e => Raise e
      | Ret k => Ret (a +:+ k)
      end
  end.

(** *** The wrapper and its world *)

Record execution_record := {
  r_id : string;
  r_tool_name : string;
  r_success : bool;
  r_execution_time : time;
  r_timestamp : time;
  r_result : string
}.

Record ToolSafetyWrapper := {
  logger : bool;                      (* [self.logger] is not [None] *)
  execution_history : list execution_record;
  max_execution_time : Z;
  max_memory_usage : Z
}.

Inductive level := INFO | DEBUG | WARNING | ERROR.

Record world := {
  self : ToolSafetyWrapper;
  sink : list (level * string);       (* lines handed to the logger *)
  ticks : nat;                        (* readings of the clock so far *)
  invoked : nat                       (* calls made to tools so far *)
}.

(** What a tool does when called under an alarm of the given number of
    seconds: it returns, it raises, or it is still running when the alarm
    goes off and the [TimeoutError] of the handler unwinds it.  A tool is a
    function of its arguments and of the alarm; it does not reach back into
    the wrapper that calls it. *)
Inductive behaviour :=
| Returns (v : value)
| Raises (e : fault)
| Overruns.

Definition tool := list value → kwargs_t → Z → behaviour.

(** *** State and exceptions *)

Definition M (A : Type) : Type := world → outcome A * world.

Definition ret {A} (a : A) : M A := λ w, (Ret a, w).
Definition raise {A} (e : fault) : M A := λ w, (Raise e, w).
Definition bind {A B} (m : M A) (k : A → M B) : M B :=
  λ w, match m w with
       | (Ret a, w') => k a w'
       | (Raise e, w') => (Raise e, w')
       end.
#[global] Instance M_ret : MRet M := @ret.
#[global] Instance M_bind : MBind M := λ A B k m, bind m k.

(** [try: body except Exception as e: handler e] *)
Definition try_except {A} (body : M A) (handler : fault → M A) : M A :=
  λ w, match body w with
       | (Ret a, w') => (Ret a, w')
       | (Raise e, w') => handler e w'
       end.

(** An expression that may raise, such as an f-string over objects. *)
Definition eval {A} (o : outcome A) : M A := λ w, (o, w).

Definition get_self : M ToolSafetyWrapper := λ w, (Ret (self w), w).
Definition set_self (s : ToolSafetyWrapper) : M unit :=
  λ w, (Ret tt, {| self := s; sink := sink w; ticks := ticks w;
                   invoked := invoked w |}).
Definition set_history (h : list execution_record) : M unit :=
  s ← get_self;
  set_self {| logger := logger s; execution_history := h;
              max_execution_time := max_execution_time s;
              max_memory_usage := max_memory_usage s |}.

(** [time.time()] *)
Definition time_time : M time :=
  λ w, (Ret (clock (ticks w)),
        {| self := self w; sink := sink w; ticks := S (ticks w);
           invoked := invoked w |}).
(** [self.logger.<level>(msg)] *)
Definition emit (lv : level) (msg : string) : M unit :=
  λ w, (Ret tt, {| self := self w; sink := sink w ++ [(lv, msg)];
                   ticks := ticks w; invoked := invoked w |}).
(** Entering the body of a tool. *)
Definition enter_tool : M unit :=
  λ w, (Ret tt, {| self := self w; sink := sink w; ticks := ticks w;
                   invoked := S (invoked w) |}).

(** *** The methods of [ToolSafetyWrapper] *)

Definition __init__ (enable_logging : bool) : ToolSafetyWrapper :=
  {| logger := enable_logging;
     execution_history := [];
     max_execution_time := 30;
     max_memory_usage := 100 * 1024 * 1024 |}.

(** The f-string of the debug line is evaluated as the argument of
    [self.logger.debug]: [str(args)], then [str(kwargs)]. *)
Definition _log_execution_start (execution_id tool_name : string)
    (args : list value) (kwargs : kwargs_t) : M unit :=
  s ← get_self;
  if logger s then
    emit INFO ("Starting tool execution: " +:+ execution_id +:+ " - "
               +:+ tool_name) ;;
    a ← eval (str_tuple args);
    k ← eval (str_dict kwargs);
    emit DEBUG ("Args: " +:+ a +:+ ", Kwargs: " +:+ k)
  else mret tt.

(** [f"Result: {result}"] formats the result with [str(result)], which is
    what [format] does for an object that does not define [__format__]. *)
Definition _log_execution_success (execution_id tool_name : string)
    (execution_time : time) (result : value) : M unit :=
  s ← get_self;
  if logger s then
    emit INFO ("Tool execution successful: " +:+ execution_id +:+ " - "
               +:+ tool_name +:+ " in " +:+ time_fmt2 execution_time +:+ "s") ;;
    r ← eval (py_str result);
    emit DEBUG ("Result: " +:+ r)
  else mret tt.

Definition _log_execution_error (execution_id tool_name error_msg : string)
    : M unit :=
  s ← get_self;
  if logger s then
    emit ERROR ("Tool execution failed: " +:+ execution_id +:+ " - "
                +:+ tool_name +:+ ": " +:+ error_msg)
  else mret tt.

Definition _log_security_warning (tool_name warning_msg : string) : M unit :=
  s ← get_self;
  if logger s then
    emit WARNING ("Security warning for " +:+ tool_name +:+ ": "
                  +:+ warning_msg)
  else mret tt.

Definition dangerous_patterns : list string :=
  ["eval("; "exec("; "import "; "os.system"; "subprocess";
   "file://"; "http://"; "https://"; "ftp://"].

(** The loop of [_validate_input] over the patterns. *)
Fixpoint scan_patterns (tool_name input_str : string)
    (patterns : list string) : M bool :=
  match patterns with
  | [] => mret true
  | pattern :: rest =>
      if Str.contains pattern input_str then
        _log_security_warning tool_name
          ("Potentially dangerous input: " +:+ pattern) ;;
        mret false
      else scan_patterns tool_name input_str rest
  end.

Definition _validate_input (tool_name : string) (args : list value)
    (kwargs : kwargs_t) : M bool :=
  try_except
    (if (10 <? length args)%nat then mret false
     else if (20 <? length kwargs)%nat then mret false
     else
       s ← eval (input_str args kwargs);
       scan_patterns tool_name s dangerous_patterns)
    (λ e,
       _log_security_warning tool_name
         ("Input validation error: " +:+ fault_str e) ;;
       mret false).

(** The alarm is set to [self.max_execution_time] seconds and the tool is
    called; all three exits cancel the alarm and pass on what the tool did. *)
Definition _execute_with_timeout (tool_func : tool) (args : list value)
    (kwargs : kwargs_t) : M value :=
  s ← get_self;
  enter_tool ;;
  match tool_func args kwargs (max_execution_time s) with
  | Returns v => mret v
  | Raises e => raise e
  | Overruns =>
      raise (Fault ("Tool execution timed out after "
                    +:+ pretty (max_execution_time s) +:+ " seconds"))
  end.

(** The entries of the dict are evaluated in the order they are written:
    the clock is read before the result is rendered. *)
Definition _record_execution (execution_id tool_name : string)
    (success : bool) (execution_time : time) (result : value) : M unit :=
  timestamp ← time_time;
  r ← eval (py_str result);
  let execution_record :=
    {| r_id := execution_id;
       r_tool_name := tool_name;
       r_success := success;
       r_execution_time := execution_time;
       r_timestamp := timestamp;
       r_result := Str.take 1000 r |} in
  s ← get_self;
  set_history (execution_history s ++ [execution_record]) ;;
  s ← get_self;
  if (1000 <? length (execution_history s))%nat then
    set_history (slice_from (-1000) (execution_history s))
  else mret tt.

Definition execute_safely (tool_func : tool) (tool_name : string)
    (args : list value) (kwargs : kwargs_t) : M value :=
  start_time ← time_time;
  let execution_id := tool_name +:+ "_" +:+ pretty (time_int start_time) in
  _log_execution_start execution_id tool_name args kwargs ;;
  try_except
    (ok ← _validate_input tool_name args kwargs;
     if negb ok then
       let error_msg := "Input validation failed for tool " +:+ tool_name in
       _log_execution_error execution_id tool_name error_msg ;;
       mret (VStr error_msg)
     else
       result ← _execute_with_timeout tool_func args kwargs;
       now ← time_time;
       let execution_time := time_sub now start_time in
       _log_execution_success execution_id tool_name execution_time result ;;
       _record_execution execution_id tool_name true execution_time result ;;
       mret result)
    (λ e,
       now ← time_time;
       let execution_time := time_sub now start_time in
       let error_msg :=
         "Tool " +:+ tool_name +:+ " execution failed: " +:+ fault_str e in
       _log_execution_error execution_id tool_name error_msg ;;
       _record_execution execution_id tool_name false execution_time
         (VStr error_msg) ;;
       mret (VStr error_msg)).

(** *** Queries and configuration *)

(** The values of the statistics dict: ints and floats. *)
Inductive stat :=
| SInt (n : Z)
| SFloat (t : time).

(** The dict that is returned, as a finite map from its keys; an empty
    list is false, which is what [not self.execution_history] and the two
    conditional expressions test. *)
Definition get_execution_stats (s : ToolSafetyWrapper) : gmap string stat :=
  let h := execution_history s in
  match h with
  | [] => {[ "total_executions" := SInt 0 ]}
  | _ :: _ =>
      let successful := List.filter (λ e, r_success e) h in
      let failed := List.filter (λ e, negb (r_success e)) h in
      let total_time := time_sum (r_execution_time <$> h) in
      let avg_time :=
        match h with
        | [] => SInt 0
        | _ :: _ => SFloat (time_div total_time (length h))
        end in
      <["total_executions" := SInt (Z.of_nat (length h))]>
      (<["successful_executions" := SInt (Z.of_nat (length successful))]>
      (<["failed_executions" := SInt (Z.of_nat (length failed))]>
      (<["success_rate" :=
           match h with
           | [] => SInt 0
           | _ :: _ => SFloat (int_div (length successful) (length h))
           end]>
      (<["average_execution_time" := avg_time]>
      (<["total_execution_time" := SFloat total_time]> ∅)))))
  end.

(** [self.execution_history[-limit:] if self.execution_history else []] *)
Definition get_recent_executions (s : ToolSafetyWrapper) (limit : Z)
    : list execution_record :=
  match execution_history s with
  | [] => []
  | _ :: _ => slice_from (- limit) (execution_history s)
  end.

Definition clear_execution_history (s : ToolSafetyWrapper)
    : ToolSafetyWrapper :=
  {| logger := logger s; execution_history := [];
     max_execution_time := max_execution_time s;
     max_memory_usage := max_memory_usage s |}.

Definition set_max_execution_time (s : ToolSafetyWrapper) (seconds : Z)
    : ToolSafetyWrapper :=
  {| logger := logger s; execution_history := execution_history s;
     max_execution_time := Z.max 1 seconds;
     max_memory_usage := max_memory_usage s |}.

Definition set_max_memory_usage (s : ToolSafetyWrapper) (bytes_limit : Z)
    : ToolSafetyWrapper :=
  {| logger := logger s; execution_history := execution_history s;
     max_execution_time := max_execution_time s;
     max_memory_usage := Z.max 1024 bytes_limit |}.

(** *** What the methods compute, read off their bodies *)

(** The verdict of [_validate_input] as a function of the arguments. *)
Definition accepts (args : list value) (kwargs : kwargs_t) : bool :=
  if (10 <? length args)%nat then false
  else if (20 <? length kwargs)%nat then false
  else match input_str args kwargs with
       | Raise _ => false
       | Ret s => forallb (λ pattern, negb (Str.contains pattern s))
                    dangerous_patterns
       end.

(** The history after [_record_execution] has appended [r] to [h]. *)
Definition record_into (r : execution_record) (h : list execution_record)
    : list execution_record :=
  if (1000 <? length (h ++ [r]))%nat then slice_from (-1000) (h ++ [r])
  else h ++ [r].

Definition with_history (s : ToolSafetyWrapper)
    (h : list execution_record) : ToolSafetyWrapper :=
  {| logger := logger s; execution_history := h;
     max_execution_time := max_execution_time s;
     max_memory_usage := max_memory_usage s |}.

(** The message of the [TimeoutError] raised by the alarm handler. *)
Definition timeout_fault (s : ToolSafetyWrapper) : fault :=
  Fault ("Tool execution timed out after " +:+ pretty (max_execution_time s)
         +:+ " seconds").

(** What the call of the tool comes to inside [_execute_with_timeout]. *)
Definition attempt (tool_func : tool) (args : list value) (kwargs : kwargs_t)
    (s : ToolSafetyWrapper) : outcome value :=
  match tool_func args kwargs (max_execution_time s) with
  | Returns v => Ret v
  | Raises e => Raise e
  | Overruns => Raise (timeout_fault s)
  end.

(** How an accepted call ends: with the value of the tool, when the tool
    returned it and [str()] of it does not raise, and else with the fault
    that the handler of [execute_safely] catches. *)
Definition settled (tool_func : tool) (args : list value) (kwargs : kwargs_t)
    (s : ToolSafetyWrapper) : outcome value :=
  match attempt tool_func args kwargs s with
  | Ret v =>
      match py_str v with
      | Ret _ => Ret v
      | Raise e => Raise e
      end
  | Raise e => Raise e
  end.

(** The strings [execute_safely] returns on failure. *)
Definition rejection_message (tool_name : string) : string :=
  "Input validation failed for tool " +:+ tool_name.
Definition failure_message (tool_name : string) (e : fault) : string :=
  "Tool " +:+ tool_name +:+ " execution failed: " +:+ fault_str e.

(** The two blocks of the [try] statement of [execute_safely], as they
    stand in its body: the guarded block and the handler. *)
Definition guarded_block (tool_func : tool) (tool_name execution_id : string)
    (start_time : time) (args : list value) (kwargs : kwargs_t) : M value :=
  ok ← _validate_input tool_name args kwargs;
  if negb ok then
    let error_msg := "Input validation failed for tool " +:+ tool_name in
    _log_execution_error execution_id tool_name error_msg ;;
    mret (VStr error_msg)
  else
    result ← _execute_with_timeout tool_func args kwargs;
    now ← time_time;
    let execution_time := time_sub now start_time in
    _log_execution_success execution_id tool_name execution_time result ;;
    _record_execution execution_id tool_name true execution_time result ;;
    mret result.

Definition handler_block (tool_name execution_id : string)
    (start_time : time) (e : fault) : M value :=
  now ← time_time;
  let execution_time := time_sub now start_time in
  let error_msg :=
    "Tool " +:+ tool_name +:+ " execution failed: " +:+ fault_str e in
  _log_execution_error execution_id tool_name error_msg ;;
  _record_execution execution_id tool_name false execution_time
    (VStr error_msg) ;;
  mret (VStr error_msg).

(** The [execution_id] of a call that starts at the given clock reading. *)
Definition execution_id_at (tool_name : string) (start_time : time) : string :=
  tool_name +:+ "_" +:+ pretty (time_int start_time).

(** The dict built by [_record_execution] from its arguments, the clock
    reading and the text of the result. *)
Definition make_record (execution_id tool_name : string) (success : bool)
    (execution_time timestamp : time) (text : string) : execution_record :=
  {| r_id := execution_id; r_tool_name := tool_name; r_success := success;
     r_execution_time := execution_time; r_timestamp := timestamp;
     r_result := Str.take 1000 text |}.

(** Recording a list of attempts, one [_record_execution] for each, given
    as execution id, tool name, success, duration and result text. *)
Fixpoint record_each
    (attempts : list (string * string * bool * time * string)) : M unit :=
  match attempts with
  | [] => mret tt
  | (id, n, ok, t, text) :: rest =>
      _record_execution id n ok t (VStr text) ;; record_each rest
  end.

(** The records these attempts make when the first is stamped with the
    [k]-th clock reading. *)
Fixpoint records_of (k : nat)
    (attempts : list (string * string * bool * time * string))
    : list execution_record :=
  match attempts with
  | [] => []
  | (id, n, ok, t, text) :: rest =>
      make_record id n ok t (clock k) text :: records_of (S k) rest
  end.

(** Two worlds that differ in the logging sink only. *)
Definition only_logs (w w' : world) : Prop :=
  self w' = self w ∧ ticks w' = ticks w ∧ invoked w' = invoked w.

(** *** Sequences of calls on one wrapper *)

Inductive call :=
| CallExecute (tool_func : tool) (tool_name : string) (args : list value)
    (kwargs : kwargs_t)
| CallStats
| CallRecent (limit : Z)
| CallClear
| CallSetTime (seconds : Z)
| CallSetMemory (bytes_limit : Z).

Definition on_self (f : ToolSafetyWrapper → ToolSafetyWrapper) (w : world)
    : world :=
  {| self := f (self w); sink := sink w; ticks := ticks w;
     invoked := invoked w |}.

(** The world after a call, whether it returned or raised. *)
Definition step (w : world) (c : call) : world :=
  match c with
  | CallExecute f n a k => (execute_safely f n a k w).2
  | CallStats | CallRecent _ => w
  | CallClear => on_self clear_execution_history w
  | CallSetTime seconds => on_self (λ s, set_max_execution_time s seconds) w
  | CallSetMemory b => on_self (λ s, set_max_memory_usage s b) w
  end.

Definition run (cs : list call) (w : world) : world := fold_left step cs w.

(** The record that a call made in world [w] has appended, if it has
    appended one: the last of the history that an accepted call of
    [execute_safely] leaves. *)
Definition appended (w : world) (c : call) : list execution_record :=
  match c with
  | CallExecute f n a k =>
      if accepts a k
      then option_list (last (execution_history (self (step w c))))
      else []
  | _ => []
  end.

(** The records appended by the calls [cs], made one after the other from
    world [w], since the history was last cleared; [made] holds those
    appended before [cs]. *)
Fixpoint appended_by (cs : list call) (w : world)
    (made : list execution_record) : list execution_record :=
  match cs with
  | [] => made
  | c :: cs' =>
      appended_by cs' (step w c)
        match c with
        | CallClear => []
        | _ => made ++ appended w c
        end
  end.

(** A wrapper just constructed, in a world where nothing has happened. *)
Definition fresh (enable_logging : bool) : world :=
  {| self := __init__ enable_logging; sink := []; ticks := 0; invoked := 0 |}.

End Wrapper.

(** ** A runtime to run the model on

    Exact rationals stand for the floats; the clock starts at a fixed
    second and advances by a quarter of a second per reading; [repr] of a
    string puts it between single quotes, which is what Python does for a
    string without quotes, backslashes or control characters. *)

Definition two_digits (n : Z) : string :=
  if n <? 10 then "0" +:+ pretty n else pretty n.

Definition q_fmt2 (q : Q) : string :=
  let c := (Qnum q * 100 + Z.pos (Qden q) / 2) / Z.pos (Qden q) in
  pretty (c / 100) +:+ "." +:+ two_digits (c mod 100).

Definition q_runtime : Runtime :=
  {| time := Q;
     clock := λ n, (1700000000 + inject_Z (Z.of_nat n) / 4)%Q;
     time_sub := Qminus;
     time_int := λ q, Z.quot (Qnum q) (Z.pos (Qden q));
     time_fmt2 := q_fmt2;
     time_sum := foldr Qplus 0%Q;
     time_div := λ q n, (q / inject_Z (Z.of_nat n))%Q;
     int_div := λ n m, (inject_Z (Z.of_nat n) / inject_Z (Z.of_nat m))%Q;
     repr_str := λ s, "'" +:+ s +:+ "'" |}.

Definition double : tool :=
  λ args kwargs _,
    match args, kwargs with
    | [VInt x], [] => Returns (VInt (x * 2))
    | _, _ => Raises (Fault "unsupported operand")
    end.

(** An object whose [__repr__] and [__str__] raise. *)
Definition unrenderable : value :=
  VObj (Raise (Fault "__repr__ failed")) (Raise (Fault "__str__ failed")).

(** [n] calls of [double], on 0, 1, ..., n-1. *)
Definition doubles (n : nat) : list call :=
  (λ i, CallExecute double "Double" [VInt (Z.of_nat i)] []) <$> seq 0 n.

(** ** The log lines of the wrapper, and calls that reach the tool *)

Section Lines.
Context `{RT : Runtime}.

(** The world after the given lines were handed to the logger. *)
Definition log_to (w : world) (lines : list (level * string)) : world :=
  {| self := self w; sink := sink w ++ lines; ticks := ticks w;
     invoked := invoked w |}.

(** The line of [_log_execution_error] and of [_log_security_warning]. *)
Definition error_line (execution_id tool_name error_msg : string)
    : level * string :=
  (ERROR, "Tool execution failed: " +:+ execution_id +:+ " - "
          +:+ tool_name +:+ ": " +:+ error_msg).
Definition warning_line (tool_name warning_msg : string) : level * string :=
  (WARNING, "Security warning for " +:+ tool_name +:+ ": " +:+ warning_msg).

(** The lines of [_log_execution_start]: the info line, and the debug line
    when both renderings of its f-string succeed. *)
Definition start_lines (execution_id tool_name : string) (args : list value)
    (kwargs : kwargs_t) : list (level * string) :=
  (INFO, "Starting tool execution: " +:+ execution_id +:+ " - "
         +:+ tool_name)
  :: match str_tuple args, str_dict kwargs with
     | Ret a, Ret k => [(DEBUG, "Args: " +:+ a +:+ ", Kwargs: " +:+ k)]
     | _, _ => []
     end.

(** The lines of [_log_execution_success]. *)
Definition success_lines (execution_id tool_name : string)
    (execution_time : time) (result : value) : list (level * string) :=
  (INFO, "Tool execution successful: " +:+ execution_id +:+ " - "
         +:+ tool_name +:+ " in " +:+ time_fmt2 execution_time +:+ "s")
  :: match py_str result with
     | Ret r => [(DEBUG, "Result: " +:+ r)]
     | Raise _ => []
     end.

(** The security warnings of [_validate_input]: none for a call with too
    many arguments; one for arguments that do not render; one for the first
    pattern of the list that occurs in the rendering. *)
Definition validation_warnings (tool_name : string) (args : list value)
    (kwargs : kwargs_t) : list (level * string) :=
  if (10 <? length args)%nat then []
  else if (20 <? length kwargs)%nat then []
  else match input_str args kwargs with
       | Raise e =>
           [warning_line tool_name
              ("Input validation error: " +:+ fault_str e)]
       | Ret s =>
           match List.find (λ pattern, Str.contains pattern s)
                   dangerous_patterns with
           | Some pattern =>
               [warning_line tool_name
                  ("Potentially dangerous input: " +:+ pattern)]
           | None => []
           end
       end.


(** The lines a call of [execute_safely] hands to the logger of a wrapper
    that has one, in order: the start lines; then, unless rendering the
    arguments raised, the warnings of validation, and either the error
    line of the rejection, or the success lines, or the error line of the
    failure (after the success info line, when it is rendering the result
    that failed). *)
Definition execute_lines (tool_func : tool) (tool_name : string)
    (args : list value) (kwargs : kwargs_t) (w : world)
    : list (level * string) :=
  let start_time := clock (ticks w) in
  let execution_id := execution_id_at tool_name start_time in
  start_lines execution_id tool_name args kwargs ++
  match input_str args kwargs with
  | Raise _ => []
  | Ret _ =>
      validation_warnings tool_name args kwargs ++
      if accepts args kwargs then
        match attempt tool_func args kwargs (self w) with
        | Ret v =>
            success_lines execution_id tool_name
              (time_sub (clock (S (ticks w))) start_time) v ++
            match py_str v with
            | Ret _ => []
            | Raise e =>
                [error_line execution_id tool_name
                   (failure_message tool_name e)]
            end
        | Raise e =>
            [error_line execution_id tool_name (failure_message tool_name e)]
        end
      else [error_line execution_id tool_name (rejection_message tool_name)]
  end.

End Lines.

(** * L3AGIToolAdapter

    [src/agents/xagent/tools/tool_adapter.py].  A tool is any object; the
    adapter knows it by its class name, by what reading its attributes
    [name], [description], [parameters] and [run] does, by what calling it
    does, and by [str()] of it.  Attribute values are taken at the types
    the adapter uses them at: names and descriptions are strings, the
    parameters are a dict from keys to lists of names (its key
    ["required"] is the one the adapter reads), and [run] is a plain
    method, with no [run] attribute of its own. *)

Module Adapter.

(** Reading an attribute of an object: it is there; it is not, which is an
    [AttributeError], the one fault that [getattr] with a default and
    [hasattr] absorb; or reading it raises something else. *)
Inductive attr (A : Type) : Type :=
| Has (a : A)
| Missing
| Fails (e : fault).
Arguments Has {A} a.
Arguments Missing {A}.
Arguments Fails {A} e.

Record l3agi_tool := {
  class_name : string;                      (* tool.__class__.__name__ *)
  attr_name : attr string;
  attr_description : attr string;
  attr_parameters : attr (gmap string (list string));
  attr_run : attr (kwargs_t → outcome value);
  call_tool : option (kwargs_t → outcome value);  (* None: not callable *)
  str_tool : outcome string                 (* str(tool) *)
}.

(** The value under ["function"]: the bound method [tool.run], or the tool
    itself. *)
Inductive function :=
| Method (run : kwargs_t → outcome value)
| Object (tool : l3agi_tool).

(** The dict that describes an adapted tool. *)
Record tool_info := {
  name : string;
  description : string;
  parameters : gmap string (list string);
  function_of : function;
  tool_type : string;
  original_tool : l3agi_tool
}.

(** The dict returned by [get_tool_schema]. *)
Record tool_schema := {
  schema_name : string;
  schema_description : string;
  schema_parameters : gmap string (list string);
  schema_type : string
}.

(** The adapter object.  [__init__] sets its attributes one after the
    other, so each of them is set or not yet set. *)
Record L3AGIToolAdapter := {
  tools : option (list l3agi_tool);
  adapted_tools : option (list tool_info);
  logger : bool                             (* [self.logger] is set *)
}.

Record world := {
  self : L3AGIToolAdapter;
  sink : list (level * string)              (* lines handed to the logger *)
}.

Definition M (A : Type) : Type := world → outcome A * world.

#[global] Instance AM_ret : MRet M := λ A a w, (Ret a, w).
#[global] Instance AM_bind : MBind M := λ A B k m w,
  match m w with
  | (Ret a, w') => k a w'
  | (Raise e, w') => (Raise e, w')
  end.

Definition raise {A} (e : fault) : M A := λ w, (Raise e, w).

Definition try_except {A} (body : M A) (handler : fault → M A) : M A :=
  λ w, match body w with
       | (Ret a, w') => (Ret a, w')
       | (Raise e, w') => handler e w'
       end.

(** The [AttributeError] of reading an attribute that [self] does not
    have. *)
Definition attribute_error (attribute : string) : fault :=
  Fault ("'L3AGIToolAdapter' object has no attribute '" +:+ attribute
         +:+ "'").

(** [self.logger.<level>(msg)]: the attribute is read first, then the
    message, which may be an f-string over objects, is evaluated. *)
Definition logger_call (lv : level) (msg : outcome string) : M unit :=
  λ w, if logger (self w) then
         match msg with
         | Ret m => (Ret tt, {| self := self w; sink := sink w ++ [(lv, m)] |})
         | Raise e => (Raise e, w)
         end
       else (Raise (attribute_error "logger"), w).

(** [self.adapted_tools] and [self.tools] *)
Definition get_adapted : M (list tool_info) :=
  λ w, match adapted_tools (self w) with
       | Some l => (Ret l, w)
       | None => (Raise (attribute_error "adapted_tools"), w)
       end.
Definition get_tools : M (list l3agi_tool) :=
  λ w, match tools (self w) with
       | Some l => (Ret l, w)
       | None => (Raise (attribute_error "tools"), w)
       end.

(** [getattr(tool, attribute, default)] *)
Definition getattr {A} (a : attr A) (default : A) : outcome A :=
  match a with
  | Has v => Ret v
  | Missing => Ret default
  | Fails e => Raise e
  end.

(** The dict literal of the [try] block of [_adapt_tools], its entries
    evaluated in the order they are written. *)
Definition describe (tool : l3agi_tool) : outcome tool_info :=
  match getattr (attr_name tool) (class_name tool) with
  | Raise e => Raise e
  | Ret n =>
      match getattr (attr_description tool) "" with
      | Raise e => Raise e
      | Ret d =>
          match getattr (attr_parameters tool) ∅ with
          | Raise e => Raise e
          | Ret p =>
              match attr_run tool with
              | Fails e => Raise e              (* hasattr(tool, 'run') *)
              | Has run =>
                  Ret {| name := n; description := d; parameters := p;
                         function_of := Method run;
                         tool_type := "l3agi_tool";
                         original_tool := tool |}
              | Missing =>
                  Ret {| name := n; description := d; parameters := p;
                         function_of := Object tool;
                         tool_type := "l3agi_tool";
                         original_tool := tool |}
              end
          end
      end
  end.

(** The [except] block of [_adapt_tools]: the warning, then the fallback
    entry, appended to what the list [adapted] holds by then. *)
Definition fall_back (tool : l3agi_tool) (e : fault)
    (adapted : list tool_info) : M (list tool_info) :=
  logger_call WARNING
    (match str_tool tool with
     | Raise e' => Raise e'
     | Ret t => Ret ("Failed to adapt tool " +:+ t +:+ ": " +:+ fault_str e)
     end) ;;
  match str_tool tool with
  | Raise e' => raise e'
  | Ret t =>
      mret (adapted ++
            [{| name := t; description := "L3AGI tool (fallback)";
                parameters := ∅; function_of := Object tool;
                tool_type := "l3agi_tool_fallback";
                original_tool := tool |}])
  end.

(** One turn of the loop of [_adapt_tools].  The entry is appended before
    the info line is logged, so a fault of the logging finds it in the
    list. *)
Definition adapt_one (tool : l3agi_tool) (adapted : list tool_info)
    : M (list tool_info) :=
  match describe tool with
  | Raise e => fall_back tool e adapted
  | Ret tool_info =>
      try_except
        (logger_call INFO (Ret ("Adapted tool: " +:+ name tool_info)) ;;
         mret (adapted ++ [tool_info]))
        (λ e, fall_back tool e (adapted ++ [tool_info]))
  end.

Fixpoint adapt_each (ts : list l3agi_tool) (adapted : list tool_info)
    : M (list tool_info) :=
  match ts with
  | [] => mret adapted
  | tool :: rest =>
      adapted' ← adapt_one tool adapted;
      adapt_each rest adapted'
  end.

Definition _adapt_tools : M (list tool_info) :=
  ts ← get_tools;
  adapt_each ts [].

(** The three assignments of [__init__]. *)
Definition set_tools (ts : list l3agi_tool) : M unit :=
  λ w, (Ret tt, {| self := {| tools := Some ts;
                              adapted_tools := adapted_tools (self w);
                              logger := logger (self w) |};
                   sink := sink w |}).
Definition set_adapted_tools (adapted : list tool_info) : M unit :=
  λ w, (Ret tt, {| self := {| tools := tools (self w);
                              adapted_tools := Some adapted;
                              logger := logger (self w) |};
                   sink := sink w |}).
Definition set_logger : M unit :=
  λ w, (Ret tt, {| self := {| tools := tools (self w);
                              adapted_tools := adapted_tools (self w);
                              logger := true |};
                   sink := sink w |}).

Definition __init__ (ts : list l3agi_tool) : M unit :=
  set_tools ts ;;
  adapted ← _adapt_tools;
  set_adapted_tools adapted ;;
  set_logger.

(** An object of the class before [__init__] has run on it. *)
Definition blank : world :=
  {| self := {| tools := None; adapted_tools := None; logger := false |};
     sink := [] |}.

Definition get_adapted_tools : M (list tool_info) := get_adapted.

(** What [execute_tool] calls for the entry it found, and what that comes
    to: the call of [tool_func.run] when the function has a [run], the call
    of the function itself when it is callable, and else a string that
    says it is not. *)
Definition invoke (tool_name : string) (tool_info : tool_info)
    (kwargs : kwargs_t) : outcome value :=
  match function_of tool_info with
  | Method run => run kwargs
  | Object tool =>
      match attr_run tool with
      | Fails e => Raise e                      (* hasattr(tool_func, 'run') *)
      | Has run => run kwargs
      | Missing =>
          match call_tool tool with
          | Some call => call kwargs
          | None => Ret (VStr ("Tool " +:+ tool_name +:+ " is not callable"))
          end
      end
  end.

(** The [try] block of [execute_tool] for the entry that was found. *)
Definition run_tool (tool_name : string) (tool_info : tool_info)
    (kwargs : kwargs_t) : M value :=
  result ← (λ w, (invoke tool_name tool_info kwargs, w));
  logger_call INFO (Ret ("Executed tool " +:+ tool_name +:+ " successfully")) ;;
  mret result.

Fixpoint execute_in (adapted : list tool_info) (tool_name : string)
    (kwargs : kwargs_t) : M value :=
  match adapted with
  | [] => raise (Fault ("Tool " +:+ tool_name +:+ " not found"))
  | tool_info :: rest =>
      if decide (name tool_info = tool_name) then
        try_except (run_tool tool_name tool_info kwargs)
          (λ e,
             let error_msg :=
               "Tool " +:+ tool_name +:+ " execution failed: "
               +:+ fault_str e in
             logger_call ERROR (Ret error_msg) ;;
             mret (VStr error_msg))
      else execute_in rest tool_name kwargs
  end.

Definition execute_tool (tool_name : string) (kwargs : kwargs_t) : M value :=
  adapted ← get_adapted;
  execute_in adapted tool_name kwargs.

Fixpoint find_info (adapted : list tool_info) (tool_name : string)
    : option tool_info :=
  match adapted with
  | [] => None
  | tool_info :: rest =>
      if decide (name tool_info = tool_name) then Some tool_info
      else find_info rest tool_name
  end.

Definition get_tool_info (tool_name : string) : M (option tool_info) :=
  adapted ← get_adapted;
  mret (find_info adapted tool_name).

Definition list_tools : M (list string) :=
  adapted ← get_adapted;
  mret (name <$> adapted).

(** The loop of [validate_tool_input] over the required parameters. *)
Fixpoint all_given (required_params : list string) (kwargs : kwargs_t)
    : bool :=
  match required_params with
  | [] => true
  | param :: rest =>
      if decide (param ∈ kwargs.*1) then all_given rest kwargs else false
  end.

Definition validate_tool_input (tool_name : string) (kwargs : kwargs_t)
    : M bool :=
  tool_info ← get_tool_info tool_name;
  match tool_info with
  | None => mret false
  | Some tool_info =>
      let required_params :=
        default [] (parameters tool_info !! "required") in
      mret (all_given required_params kwargs)
  end.

Definition get_tool_schema (tool_name : string) : M (option tool_schema) :=
  tool_info ← get_tool_info tool_name;
  match tool_info with
  | None => mret None
  | Some tool_info =>
      mret (Some {| schema_name := name tool_info;
                    schema_description := description tool_info;
                    schema_parameters := parameters tool_info;
                    schema_type := tool_type tool_info |})
  end.

(** A tool to run the adapter on: it has all four attributes, and its
    [run] returns the one keyword argument it is given. *)
Definition echo_run (kwargs : kwargs_t) : outcome value :=
  match kwargs with
  | [(_, v)] => Ret v
  | _ => Raise (Fault "run() takes one keyword argument")
  end.

Definition echo_tool : l3agi_tool :=
  {| class_name := "EchoTool";
     attr_name := Has "Echo";
     attr_description := Has "Returns its input";
     attr_parameters := Has {[ "required" := ["input_text"] ]};
     attr_run := Has echo_run;
     call_tool := None;
     str_tool := Ret "<EchoTool object>" |}.

(** The entry that describes [echo_tool]. *)
Definition echo_info : tool_info :=
  {| name := "Echo";
     description := "Returns its input";
     parameters := {[ "required" := ["input_text"] ]};
     function_of := Method echo_run;
     tool_type := "l3agi_tool";
     original_tool := echo_tool |}.

(** An adapter with its attributes set by hand to what adapting
    [echo_tool] gives. *)
Definition by_hand : world :=
  {| self := {| tools := Some [echo_tool];
                adapted_tools := Some [echo_info];
                logger := true |};
     sink := [] |}.

End Adapter.

(** * Properties *)

(** ** Strings *)

Lemma prefix_app (p s : string) :
  String.prefix p s = true ↔ ∃ b, s = p +:+ b.
Proof.
  revert s. induction p as [|c p IH]; intros s.
  - destruct s; simpl; (split; [intros _; by eexists | done]).
  - destruct s as [|d s]; simpl.
    + split; [done | intros [b Hb]; discriminate].
    + destruct (Ascii.ascii_dec c d) as [->|Hne].
      * rewrite IH. split; intros [b Hb]; exists b.
        -- by rewrite Hb.
        -- by injection Hb.
      * split; [done | intros [b Hb]; injection Hb; congruence].
Qed.

(** [Str.contains] decides what [in] means: the pattern occurs somewhere. *)
Lemma contains_spec (p s : string) :
  Str.contains p s = true ↔ ∃ a b, s = a +:+ p +:+ b.
Proof.
  induction s as [|c s IH]; cbn [Str.contains].
  - rewrite orb_false_r, prefix_app. split.
    + intros [b Hb]. by exists "", b.
    + intros [a [b Hab]]. destruct a; [by exists b | discriminate].
  - rewrite orb_true_iff, prefix_app, IH. split.
    + intros [[b Hb] | [a [b Hab]]].
      * by exists "", b.
      * exists (String c a), b. by rewrite Hab.
    + intros [a [b Hab]]. destruct a as [|d a].
      * left. by exists b.
      * right. exists a, b. by injection Hab.
Qed.

Lemma app_empty_r (s : string) : s +:+ "" = s.
Proof. induction s as [|c s IH]; [done|]. unfold String.app in *. simpl. by rewrite IH. Qed.

Lemma app_assoc_s (a b c : string) : (a +:+ b) +:+ c = a +:+ b +:+ c.
Proof.
  induction a as [|x a IH]; [done|]. unfold String.app in *. simpl.
  by rewrite IH.
Qed.

Lemma take_length (n : nat) (s : string) :
  (String.length (Str.take n s) ≤ n)%nat.
Proof.
  revert s. induction n as [|n IH]; intros [|c s]; simpl; try lia.
  specialize (IH s). lia.
Qed.

Lemma take_short (n : nat) (s : string) :
  (String.length s ≤ n)%nat → Str.take n s = s.
Proof.
  revert s. induction n as [|n IH]; intros [|c s]; simpl; try done; try lia.
  intros Hle. f_equal. apply IH. lia.
Qed.

(** ** Slices *)

Lemma slice_from_last {A} (n : nat) (l : list A) :
  (0 < n)%nat → slice_from (- Z.of_nat n) l = drop (length l - n) l.
Proof.
  intros Hn. unfold slice_from.
  destruct (Z.ltb_spec (- Z.of_nat n) 0) as [_|?]; [|lia].
  f_equal. lia.
Qed.

Lemma slice_from_zero {A} (l : list A) : slice_from 0 l = l.
Proof.
  unfold slice_from. simpl. by rewrite Z.min_l by lia.
Qed.

(** Keeping the last [n] of what is already a last-[n] suffix with more
    appended keeps the last [n] of the whole. *)
Lemma drop_last_app {A} (n : nat) (x y : list A) :
  drop (length (drop (length x - n) x ++ y) - n) (drop (length x - n) x ++ y)
  = drop (length (x ++ y) - n) (x ++ y).
Proof.
  destruct (decide (length x ≤ n)%nat) as [Hle|Hgt].
  - replace (length x - n)%nat with 0%nat by lia. done.
  - rewrite !drop_app, !length_app, !length_drop, drop_drop.
    f_equal; f_equal; lia.
Qed.

(** ** The methods, one by one *)

Section Methods.
Context `{RT : Runtime}.

Lemma only_logs_refl w : only_logs w w.
Proof. done. Qed.

Lemma only_logs_trans w1 w2 w3 :
  only_logs w1 w2 → only_logs w2 w3 → only_logs w1 w3.
Proof. unfold only_logs. intros (?&?&?) (?&?&?). split_and!; congruence. Qed.

Ltac unfold_m :=
  unfold mbind, M_bind, bind, mret, M_ret, ret, raise, eval, get_self,
    set_history, set_self, time_time, emit, enter_tool, try_except in *.

Ltac solve_logs :=
  eexists; split; [|reflexivity]; first [done | by unfold only_logs].

Lemma _log_execution_error_spec id n msg w :
  ∃ w', _log_execution_error id n msg w = (Ret tt, w') ∧ only_logs w w'.
Proof.
  unfold _log_execution_error. unfold_m. simpl.
  destruct (logger (self w)); eexists; (split; [reflexivity | done]).
Qed.

Lemma _log_security_warning_spec n msg w :
  ∃ w', _log_security_warning n msg w = (Ret tt, w') ∧ only_logs w w'.
Proof.
  unfold _log_security_warning. unfold_m. simpl.
  destruct (logger (self w)); eexists; (split; [reflexivity | done]).
Qed.

(** The start log raises exactly when logging is on and the arguments
    cannot be rendered; it raises what the rendering raised. *)
Lemma _log_execution_start_spec id n args kwargs w :
  ∃ w', only_logs w w' ∧
    _log_execution_start id n args kwargs w =
      (if logger (self w) then
         match input_str args kwargs with
         | Raise e => Raise e
         | Ret _ => Ret tt
         end
       else Ret tt, w').
Proof.
  unfold _log_execution_start, input_str. unfold_m. simpl.
  destruct (logger (self w)); [|solve_logs].
  destruct (str_tuple args); [|solve_logs].
  destruct (str_dict kwargs); solve_logs.
Qed.

Lemma _log_execution_success_spec id n t result w :
  ∃ w', only_logs w w' ∧
    _log_execution_success id n t result w =
      (if logger (self w) then
         match py_str result with
         | Raise e => Raise e
         | Ret _ => Ret tt
         end
       else Ret tt, w').
Proof.
  unfold _log_execution_success. unfold_m. simpl.
  destruct (logger (self w)); [|solve_logs].
  destruct (py_str result); solve_logs.
Qed.

Lemma scan_patterns_spec n s patterns w :
  ∃ w', only_logs w w' ∧
    scan_patterns n s patterns w =
      (Ret (forallb (λ pattern, negb (Str.contains pattern s)) patterns), w').
Proof.
  induction patterns as [|p ps IH]; simpl.
  - solve_logs.
  - destruct (Str.contains p s); simpl; [|done].
    unfold_m.
    destruct (_log_security_warning_spec n
                ("Potentially dangerous input: " +:+ p) w) as (w' & -> & Hw).
    solve_logs.
Qed.

(** [_validate_input] never raises: it returns its verdict. *)
Lemma _validate_input_spec n args kwargs w :
  ∃ w', only_logs w w' ∧
    _validate_input n args kwargs w = (Ret (accepts args kwargs), w').
Proof.
  unfold _validate_input, accepts. unfold_m.
  destruct (10 <? length args)%nat; [solve_logs|].
  destruct (20 <? length kwargs)%nat; [solve_logs|].
  destruct (input_str args kwargs) as [s|e].
  - destruct (scan_patterns_spec n s dangerous_patterns w) as (w' & Hw & ->).
    solve_logs.
  - destruct (_log_security_warning_spec n
                ("Input validation error: " +:+ fault_str e) w)
      as (w' & -> & Hw).
    solve_logs.
Qed.

Lemma _execute_with_timeout_spec f args kwargs w :
  _execute_with_timeout f args kwargs w =
    (attempt f args kwargs (self w),
     {| self := self w; sink := sink w; ticks := ticks w;
        invoked := S (invoked w) |}).
Proof.
  unfold _execute_with_timeout, attempt, timeout_fault. unfold_m. simpl.
  by destruct (f args kwargs (max_execution_time (self w))).
Qed.

(** [_record_execution] reads the clock, renders the result, appends the
    record and evicts; if the rendering raises, nothing is appended. *)
Lemma _record_execution_spec id n success t result w :
  _record_execution id n success t result w =
    match py_str result with
    | Ret s =>
        (Ret tt,
         {| self := with_history (self w)
              (record_into
                 {| r_id := id; r_tool_name := n; r_success := success;
                    r_execution_time := t; r_timestamp := clock (ticks w);
                    r_result := Str.take 1000 s |}
                 (execution_history (self w)));
            sink := sink w; ticks := S (ticks w); invoked := invoked w |})
    | Raise e =>
        (Raise e,
         {| self := self w; sink := sink w; ticks := S (ticks w);
            invoked := invoked w |})
    end.
Proof.
  unfold _record_execution, record_into, with_history. unfold_m. simpl.
  destruct (py_str result) as [s|e]; [|done].
  by destruct (1000 <? _)%nat.
Qed.

(** [execute_safely] is its start log followed by the [try] statement. *)
Lemma execute_safely_eq f n args kwargs :
  execute_safely f n args kwargs =
    (start_time ← time_time;
     let execution_id := execution_id_at n start_time in
     _log_execution_start execution_id n args kwargs ;;
     try_except (guarded_block f n execution_id start_time args kwargs)
       (handler_block n execution_id start_time)).
Proof. reflexivity. Qed.

(** The handler always returns: the error string, with one failure record
    appended. *)
Lemma handler_block_spec n id start e w :
  ∃ w', handler_block n id start e w = (Ret (VStr (failure_message n e)), w')
    ∧ self w' = with_history (self w)
        (record_into
           (make_record id n false (time_sub (clock (ticks w)) start)
              (clock (S (ticks w))) (failure_message n e))
           (execution_history (self w)))
    ∧ ticks w' = S (S (ticks w)) ∧ invoked w' = invoked w.
Proof.
  unfold handler_block.
  unfold mbind at 1, M_bind at 1, bind at 1, time_time at 1.
  unfold mbind at 1, M_bind at 1, bind at 1.
  match goal with |- context [_log_execution_error ?a ?b ?c ?d] =>
    destruct (_log_execution_error_spec a b c d) as (w1 & -> & Hs & Ht & Hi)
  end.
  unfold mbind at 1, M_bind at 1, bind at 1.
  rewrite _record_execution_spec. simpl in *.
  eexists. split; [reflexivity|]. simpl.
  unfold make_record, failure_message. rewrite Hs, Ht, Hi. done.
Qed.

(** The guarded block: a rejection returns the rejection string and
    touches nothing but the log; an accepted call enters the tool once and
    then returns its value with a success record appended, or raises. *)
Lemma guarded_block_spec f n id start args kwargs w :
  ∃ o w', guarded_block f n id start args kwargs w = (o, w') ∧
    if accepts args kwargs then
      invoked w' = S (invoked w) ∧
      match attempt f args kwargs (self w) with
      | Raise e => o = Raise e ∧ self w' = self w ∧ ticks w' = ticks w
      | Ret v =>
          match py_str v with
          | Ret s =>
              o = Ret v ∧ ticks w' = S (S (ticks w)) ∧
              self w' = with_history (self w)
                (record_into
                   (make_record id n true (time_sub (clock (ticks w)) start)
                      (clock (S (ticks w))) s)
                   (execution_history (self w)))
          | Raise e =>
              o = Raise e ∧ self w' = self w ∧
              (ticks w' = S (ticks w) ∨ ticks w' = S (S (ticks w)))
          end
      end
    else o = Ret (VStr (rejection_message n)) ∧ only_logs w w'.
Proof.
  unfold guarded_block.
  unfold mbind at 1, M_bind at 1, bind at 1.
  destruct (_validate_input_spec n args kwargs w) as (w1 & (Hs1 & Ht1 & Hi1) & ->).
  destruct (accepts args kwargs); simpl.
  - unfold mbind at 1, M_bind at 1, bind at 1.
    rewrite _execute_with_timeout_spec, Hs1.
    destruct (attempt f args kwargs (self w)) as [v|e].
    + unfold mbind at 1, M_bind at 1, bind at 1, time_time at 1.
      unfold mbind at 1, M_bind at 1, bind at 1.
      match goal with |- context [_log_execution_success ?a ?b ?c ?d ?x] =>
        destruct (_log_execution_success_spec a b c d x)
          as (w2 & (Hs2 & Ht2 & Hi2) & ->)
      end.
      simpl in *. rewrite Ht1, Hi1 in *.
      destruct (logger (self w)), (py_str v) as [s|e] eqn:Hv;
        try (do 2 eexists; split; [reflexivity|]; simpl;
             split_and!; (congruence || (left; congruence))).
      all: unfold mbind at 1, M_bind at 1, bind at 1;
        rewrite _record_execution_spec, Hv;
        do 2 eexists; (split; [reflexivity|]); simpl;
        rewrite ?Hs2, ?Ht2, ?Hi2, ?Hs1, ?Ht1, ?Hi1; split_and!; auto.
    + do 2 eexists. split; [reflexivity|]. simpl. split_and!; congruence.
  - unfold mbind at 1, M_bind at 1, bind at 1.
    match goal with |- context [_log_execution_error ?a ?b ?c ?d] =>
      destruct (_log_execution_error_spec a b c d) as (w2 & -> & Hw2)
    end.
    do 2 eexists. split; [reflexivity|]. split; [done|].
    eapply only_logs_trans; [|exact Hw2]. done.
Qed.

(** ** [execute_safely], case by case *)

(** Every call of [execute_safely] falls in one of three cases: the start
    log raises, before the [try] is entered; the input is rejected; or the
    tool is entered once and the attempt is recorded. *)
Lemma execute_safely_spec f n args kwargs w :
  let start := clock (ticks w) in
  let id := execution_id_at n start in
  let h := execution_history (self w) in
  ∃ o w', execute_safely f n args kwargs w = (o, w') ∧
    if logger (self w) && is_raise (input_str args kwargs) then
      (∃ e, input_str args kwargs = Raise e ∧ o = Raise e) ∧
      self w' = self w ∧ invoked w' = invoked w
    else if negb (accepts args kwargs) then
      o = Ret (VStr (rejection_message n)) ∧
      self w' = self w ∧ invoked w' = invoked w
    else
      invoked w' = S (invoked w) ∧
      match attempt f args kwargs (self w) with
      | Raise e =>
          o = Ret (VStr (failure_message n e)) ∧
          self w' = with_history (self w)
            (record_into
               (make_record id n false
                  (time_sub (clock (S (ticks w))) start)
                  (clock (S (S (ticks w)))) (failure_message n e)) h)
      | Ret v =>
          match py_str v with
          | Ret s =>
              o = Ret v ∧
              self w' = with_history (self w)
                (record_into
                   (make_record id n true
                      (time_sub (clock (S (ticks w))) start)
                      (clock (S (S (ticks w)))) s) h)
          | Raise e =>
              o = Ret (VStr (failure_message n e)) ∧
              ∃ t ts, self w' = with_history (self w)
                (record_into
                   (make_record id n false t ts (failure_message n e)) h)
          end
      end.
Proof.
  intros start id h. rewrite execute_safely_eq.
  unfold mbind at 1, M_bind at 1, bind at 1, time_time at 1.
  unfold mbind at 1, M_bind at 1, bind at 1.
  fold start. fold id.
  match goal with |- context [_log_execution_start id n args kwargs ?x] =>
    destruct (_log_execution_start_spec id n args kwargs x)
      as (w1 & (Hs1 & Ht1 & Hi1) & ->)
  end.
  simpl in Hs1, Ht1, Hi1. simpl self.
  assert (∃ o w',
    try_except (guarded_block f n id start args kwargs)
      (handler_block n id start) w1 = (o, w') ∧
    if negb (accepts args kwargs) then
      o = Ret (VStr (rejection_message n)) ∧
      self w' = self w ∧ invoked w' = invoked w
    else
      invoked w' = S (invoked w) ∧
      match attempt f args kwargs (self w) with
      | Raise e =>
          o = Ret (VStr (failure_message n e)) ∧
          self w' = with_history (self w)
            (record_into
               (make_record id n false
                  (time_sub (clock (S (ticks w))) start)
                  (clock (S (S (ticks w)))) (failure_message n e)) h)
      | Ret v =>
          match py_str v with
          | Ret s =>
              o = Ret v ∧
              self w' = with_history (self w)
                (record_into
                   (make_record id n true
                      (time_sub (clock (S (ticks w))) start)
                      (clock (S (S (ticks w)))) s) h)
          | Raise e =>
              o = Ret (VStr (failure_message n e)) ∧
              ∃ t ts, self w' = with_history (self w)
                (record_into
                   (make_record id n false t ts (failure_message n e)) h)
          end
      end) as Htry.
  { unfold try_except.
    destruct (guarded_block_spec f n id start args kwargs w1)
      as (o1 & w2 & -> & Hg).
    rewrite Hs1, Ht1, Hi1 in Hg.
    destruct (accepts args kwargs); simpl.
    - destruct Hg as [Hi2 Hg].
      destruct (attempt f args kwargs (self w)) as [v|e].
      + destruct (py_str v) as [s|e].
        * destruct Hg as (-> & Ht2 & Hs2).
          do 2 eexists. split; [reflexivity|]. done.
        * destruct Hg as (-> & Hs2 & Ht2).
          destruct (handler_block_spec n id start e w2)
            as (w3 & -> & Hs3 & Ht3 & Hi3).
          do 2 eexists. split; [reflexivity|].
          split; [congruence|]. split; [done|].
          do 2 eexists. rewrite Hs3, Hs2. reflexivity.
      + destruct Hg as (-> & Hs2 & Ht2).
        destruct (handler_block_spec n id start e w2)
          as (w3 & -> & Hs3 & Ht3 & Hi3).
        do 2 eexists. split; [reflexivity|].
        split; [congruence|]. split; [done|].
        rewrite Hs3, Hs2, Ht2. reflexivity.
    - destruct Hg as (-> & Hs2 & Ht2 & Hi2).
      do 2 eexists. split; [reflexivity|]. split_and!; congruence. }
  destruct (logger (self w)); simpl; [|exact Htry].
  destruct (input_str args kwargs) as [s|e]; simpl; [exact Htry|].
  do 2 eexists. split; [reflexivity|]. split_and!; eauto.
Qed.

(** ** Consequences *)

Lemma _validate_input_verdict n args kwargs w :
  (_validate_input n args kwargs w).1 = Ret (accepts args kwargs).
Proof.
  by destruct (_validate_input_spec n args kwargs w) as (w' & _ & ->).
Qed.

Lemma accepts_renders args kwargs :
  accepts args kwargs = true → is_raise (input_str args kwargs) = false.
Proof.
  unfold accepts.
  destruct (10 <? _)%nat; [done|]. destruct (20 <? _)%nat; [done|].
  by destruct (input_str args kwargs).
Qed.

Lemma forallb_false {A} (f : A → bool) (l : list A) :
  forallb f l = false ↔ ∃ x, In x l ∧ f x = false.
Proof.
  induction l as [|a l IH]; simpl.
  - split; [done | by intros (x & [] & _)].
  - rewrite andb_false_iff, IH. split.
    + intros [Ha | (x & Hx & Hf)]; [by exists a; auto | by exists x; auto].
    + intros (x & [<- | Hx] & Hf); [by left | right; by exists x].
Qed.

(** What makes [_validate_input] say no. *)
Lemma accepts_false_iff args kwargs :
  accepts args kwargs = false ↔
    (10 < length args)%nat ∨ (20 < length kwargs)%nat ∨
    is_raise (input_str args kwargs) = true ∨
    ∃ s pattern, input_str args kwargs = Ret s ∧
      pattern ∈ dangerous_patterns ∧ Str.contains pattern s = true.
Proof.
  unfold accepts.
  destruct (Nat.ltb_spec 10 (length args)); [split; auto|].
  destruct (Nat.ltb_spec 20 (length kwargs)); [split; auto|].
  destruct (input_str args kwargs) as [s|e]; cbn [is_raise]; [|split; auto].
  rewrite forallb_false. split.
  - intros (p & Hin & Hp). right; right; right. exists s, p.
    split_and!; [done| by apply list_elem_of_In |].
    by destruct (Str.contains p s).
  - intros [?|[?|[?|(s' & p & [= <-] & Hin & Hp)]]]; try lia; try done.
    exists p. split; [by apply list_elem_of_In | by rewrite Hp].
Qed.

(** ** The history *)

Lemma record_into_eq r h :
  record_into r h = drop (length (h ++ [r]) - 1000) (h ++ [r]).
Proof.
  unfold record_into.
  destruct (Nat.ltb_spec 1000 (length (h ++ [r]))) as [Hlt|Hle].
  - change (-1000) with (- Z.of_nat 1000). apply slice_from_last. lia.
  - by replace (length (h ++ [r]) - 1000)%nat with 0%nat by lia.
Qed.

Lemma record_into_length r h :
  length (record_into r h) = (S (length h) `min` 1000)%nat.
Proof.
  rewrite record_into_eq, length_drop, length_app. simpl. lia.
Qed.

(** Below capacity the record is appended; at capacity the oldest record
    leaves as the new one enters. *)
Lemma record_into_cases r h :
  (length h ≤ 1000)%nat →
  record_into r h =
    if decide (length h < 1000)%nat then h ++ [r] else drop 1 h ++ [r].
Proof.
  intros Hle. rewrite record_into_eq, length_app. simpl.
  case_decide.
  - by replace (length h + 1 - 1000)%nat with 0%nat by lia.
  - replace (length h + 1 - 1000)%nat with 1%nat by lia.
    rewrite drop_app. replace (1 - length h)%nat with 0%nat by lia. done.
Qed.

Lemma record_each_history attempts w :
  (length (execution_history (self w)) ≤ 1000)%nat →
  ∃ w', record_each attempts w = (Ret tt, w') ∧
    execution_history (self w') =
      let all := execution_history (self w) ++ records_of (ticks w) attempts in
      drop (length all - 1000) all.
Proof.
  revert w. induction attempts as [|[[[[id n] ok] t] text] rest IH];
    intros w Hle; simpl.
  - exists w. split; [done|]. rewrite app_nil_r.
    by replace (_ - 1000)%nat with 0%nat by lia.
  - unfold mbind at 1, M_bind at 1, bind at 1.
    rewrite _record_execution_spec. simpl.
    match goal with |- context [record_each rest ?x] =>
      destruct (IH x) as (w' & -> & Hh)
    end.
    { simpl. rewrite record_into_length. lia. }
    exists w'. split; [done|]. rewrite Hh. simpl.
    rewrite record_into_eq.
    fold (make_record id n ok t (clock (ticks w)) text).
    rewrite drop_last_app. by rewrite <- app_assoc.
Qed.

Lemma record_into_last r h : last (record_into r h) = Some r.
Proof.
  rewrite record_into_eq, drop_app, length_app. simpl.
  replace (length h + 1 - 1000 - length h)%nat with 0%nat by lia.
  apply last_snoc.
Qed.

(** The history after a call: one record more when the call was accepted,
    the same when it was not. *)
Lemma execute_safely_history f n args kwargs w :
  let h := execution_history (self w) in
  let h' := execution_history (self (execute_safely f n args kwargs w).2) in
  if accepts args kwargs then
    ∃ r, h' = record_into r h
      ∧ r_tool_name r = n
      ∧ r_success r = negb (is_raise (settled f args kwargs (self w)))
  else h' = h.
Proof.
  cbv zeta.
  destruct (execute_safely_spec f n args kwargs w) as (o & w' & -> & H).
  simpl. unfold settled.
  destruct (accepts args kwargs) eqn:Hacc.
  - rewrite (accepts_renders _ _ Hacc), andb_false_r in H. simpl in H.
    destruct H as [_ H].
    destruct (attempt f args kwargs (self w)) as [v|e];
      [destruct (py_str v) as [s|e]|].
    + destruct H as [_ ->]. by eexists.
    + destruct H as (_ & t & ts & ->). by eexists.
    + destruct H as [_ ->]. by eexists.
  - simpl in H.
    destruct (logger (self w) && is_raise (input_str args kwargs));
      by destruct H as (_ & -> & _).
Qed.

Lemma execute_safely_bounded f n args kwargs w :
  (length (execution_history (self w)) ≤ 1000)%nat →
  (length (execution_history (self (execute_safely f n args kwargs w).2))
   ≤ 1000)%nat.
Proof.
  intros Hle.
  destruct (execute_safely_spec f n args kwargs w) as (o & w' & -> & H).
  simpl.
  destruct (logger (self w) && is_raise (input_str args kwargs)).
  { destruct H as (_ & -> & _). done. }
  destruct (negb (accepts args kwargs)).
  { destruct H as (_ & -> & _). done. }
  destruct H as [_ H].
  destruct (attempt f args kwargs (self w)) as [v|e];
    [destruct (py_str v) as [s|e]|].
  - destruct H as [_ ->]. simpl. rewrite record_into_length. lia.
  - destruct H as (_ & t & ts & ->). simpl. rewrite record_into_length. lia.
  - destruct H as [_ ->]. simpl. rewrite record_into_length. lia.
Qed.

Lemma run_bounded cs w :
  (length (execution_history (self w)) ≤ 1000)%nat →
  (length (execution_history (self (run cs w))) ≤ 1000)%nat.
Proof.
  revert w. induction cs as [|c cs IH]; intros w Hle; [done|].
  simpl. apply IH.
  destruct c; simpl; try done.
  - by apply execute_safely_bounded.
  - lia.
Qed.

(** A call appends what [appended] says, after what was there. *)
Lemma step_history w c made :
  execution_history (self w) = drop (length made - 1000) made →
  execution_history (self (step w c)) =
    let made' := match c with
                 | CallClear => []
                 | _ => made ++ appended w c
                 end in
    drop (length made' - 1000) made'.
Proof.
  intros Hh. cbv zeta.
  destruct c as [f n a k| | | | |]; simpl;
    rewrite ?app_nil_r; try done.
  pose proof (execute_safely_history f n a k w) as H. cbv zeta in H.
  destruct (accepts a k).
  - destruct H as (r & Hr & _). rewrite Hr, record_into_last. simpl.
    rewrite record_into_eq, Hh. apply drop_last_app.
  - by rewrite H, app_nil_r.
Qed.

Lemma run_history cs w made :
  execution_history (self w) = drop (length made - 1000) made →
  execution_history (self (run cs w)) =
    let all := appended_by cs w made in drop (length all - 1000) all.
Proof.
  revert w made. induction cs as [|c cs IH]; intros w made Hh; [done|].
  simpl. apply IH. by apply step_history.
Qed.

Lemma records_of_length k attempts :
  length (records_of k attempts) = length attempts.
Proof.
  revert k. induction attempts as [|[[[[id n] ok] t] text] rest IH];
    intros k; simpl; [done|]. by rewrite IH.
Qed.

Lemma count_success_failed (h : list execution_record) :
  (length (List.filter (λ e, r_success e) h)
   + length (List.filter (λ e, negb (r_success e)) h) = length h)%nat.
Proof.
  induction h as [|r h IH]; simpl; [done|].
  destruct (r_success r); simpl; lia.
Qed.

End Methods.

(** * The claims of the specification *)

Section Claims.
Context `{RT : Runtime}.

(** C6: the history never holds more than 1000 records, whatever sequence
    of calls is made on a fresh wrapper, and eviction is first-in
    first-out: after any sequence of calls the history is the last 1000 of
    the records appended since it was last cleared (all of them when there
    are fewer), in the order they were appended; and so it is after any
    number of attempts recorded by [_record_execution] one after the
    other, with the records spelled out. *)
Theorem history_bounded_and_fifo :
  (∀ enable_logging cs,
     (length (execution_history (self (run cs (fresh enable_logging))))
      ≤ 1000)%nat)
  ∧ (∀ enable_logging cs,
       let all := appended_by cs (fresh enable_logging) [] in
       execution_history (self (run cs (fresh enable_logging)))
       = drop (length all - 1000) all
       ∧ length (execution_history (self (run cs (fresh enable_logging))))
         = (length all `min` 1000)%nat)
  ∧ (∀ enable_logging attempts,
       let w' := (record_each attempts (fresh enable_logging)).2 in
       execution_history (self w') =
         drop (length attempts - 1000) (records_of 0 attempts)
       ∧ length (execution_history (self w'))
         = (length attempts `min` 1000)%nat).
Proof.
  split_and!.
  - intros b cs. apply run_bounded. simpl. lia.
  - intros b cs. cbv zeta.
    rewrite (run_history cs (fresh b) []) by done. cbv zeta.
    split; [done|]. rewrite length_drop. lia.
  - intros b attempts.
    destruct (record_each_history attempts (fresh b)) as (w' & Hrun & Hh).
    { simpl. lia. }
    rewrite Hrun. simpl in *. rewrite Hh, records_of_length.
    split; [done|]. rewrite length_drop, records_of_length. lia.
Qed.

(** C9: the setters clamp and never reject: [set_max_execution_time]
    stores [max(1, seconds)] and [set_max_memory_usage] stores
    [max(1024, bytes_limit)], for every integer; a value at or above the
    floor is stored as it is, a value below it is replaced by the floor. *)
Theorem setters_clamp (s : ToolSafetyWrapper) (seconds bytes_limit : Z) :
  max_execution_time (set_max_execution_time s seconds) = Z.max 1 seconds
  ∧ max_execution_time (set_max_execution_time s seconds)
    = (if seconds <? 1 then 1 else seconds)
  ∧ max_memory_usage (set_max_memory_usage s bytes_limit)
    = Z.max 1024 bytes_limit
  ∧ max_memory_usage (set_max_memory_usage s bytes_limit)
    = (if bytes_limit <? 1024 then 1024 else bytes_limit).
Proof.
  simpl. split_and!; try done.
  - destruct (Z.ltb_spec seconds 1); lia.
  - destruct (Z.ltb_spec bytes_limit 1024); lia.
Qed.




(** C7, as the code has it: on a history that is not empty
    [get_execution_stats] returns the six aggregates: the number of
    records, of successes and of failures (which add up to the number of
    records), the success rate successes/records, the average duration
    (sum of the durations)/records, and the sum of the durations; on an
    empty history it returns the record count 0 and nothing else. *)
Theorem get_execution_stats_spec (s : ToolSafetyWrapper) :
  let h := execution_history s in
  let stats := get_execution_stats s in
  let successful := length (List.filter (λ e, r_success e) h) in
  let failed := length (List.filter (λ e, negb (r_success e)) h) in
  let total_time := time_sum (r_execution_time <$> h) in
  match h with
  | [] => stats = {[ "total_executions" := SInt 0 ]}
  | _ :: _ =>
      stats !! "total_executions" = Some (SInt (Z.of_nat (length h)))
      ∧ stats !! "successful_executions" = Some (SInt (Z.of_nat successful))
      ∧ stats !! "failed_executions" = Some (SInt (Z.of_nat failed))
      ∧ (successful + failed = length h)%nat
      ∧ stats !! "success_rate"
        = Some (SFloat (int_div successful (length h)))
      ∧ stats !! "average_execution_time"
        = Some (SFloat (time_div total_time (length h)))
      ∧ stats !! "total_execution_time" = Some (SFloat total_time)
      ∧ dom stats = {[ "total_executions"; "successful_executions";
                       "failed_executions"; "success_rate";
                       "average_execution_time"; "total_execution_time" ]}
  end.
Proof.
  cbv zeta. unfold get_execution_stats.
  destruct (execution_history s) as [|r h']; [done|].
  cbv iota. generalize (r :: h'). intros h.
  split_and!.
  - apply lookup_insert_eq.
  - rewrite lookup_insert_ne by done. apply lookup_insert_eq.
  - rewrite !lookup_insert_ne by done. apply lookup_insert_eq.
  - apply count_success_failed.
  - rewrite !lookup_insert_ne by done. apply lookup_insert_eq.
  - rewrite !lookup_insert_ne by done. apply lookup_insert_eq.
  - rewrite !lookup_insert_ne by done. apply lookup_insert_eq.
  - rewrite !dom_insert_L, dom_empty_L. set_solver.
Qed.

(** [get_recent_executions] with a positive limit: the last [limit]
    records, all of them when there are fewer. *)
Lemma get_recent_executions_positive (s : ToolSafetyWrapper) (limit : nat) :
  (0 < limit)%nat →
  get_recent_executions s (Z.of_nat limit)
  = drop (length (execution_history s) - limit) (execution_history s).
Proof.
  intros Hpos. unfold get_recent_executions.
  destruct (execution_history s) as [|r h] eqn:Hh; [done|].
  by apply slice_from_last.
Qed.

(** With limit 0 the slice is [history[-0:]], the whole history. *)
Lemma get_recent_executions_zero (s : ToolSafetyWrapper) :
  get_recent_executions s 0 = execution_history s.
Proof.
  unfold get_recent_executions.
  destruct (execution_history s) as [|r h] eqn:Hh; [done|].
  apply slice_from_zero.
Qed.

Lemma get_recent_executions_cleared (s : ToolSafetyWrapper) (limit : Z) :
  get_recent_executions (clear_execution_history s) limit = [].
Proof. done. Qed.

(** Both failure strings name the tool, and the second carries the
    description of the fault. *)
Lemma rejection_message_names_tool n :
  Str.contains n (rejection_message n) = true.
Proof.
  apply contains_spec. exists "Input validation failed for tool ", "".
  unfold rejection_message. by rewrite app_empty_r.
Qed.

Lemma failure_message_names_tool_and_fault n e :
  Str.contains n (failure_message n e) = true
  ∧ Str.contains (fault_str e) (failure_message n e) = true.
Proof.
  unfold failure_message. split; apply contains_spec.
  - by exists "Tool ", (" execution failed: " +:+ fault_str e).
  - exists ("Tool " +:+ n +:+ " execution failed: "), "".
    by rewrite app_empty_r, !app_assoc_s.
Qed.

(** Where the start log does not raise, that is, on a wrapper without a
    logger or on arguments that render, [execute_safely] returns: the
    value of the tool when the call was accepted, the tool returned and
    the value renders; the rejection string when the call was not
    accepted; and otherwise the failure string for the fault, with a
    failure record holding its first 1000 characters appended. *)
Lemma execute_safely_contained f n args kwargs w :
  logger (self w) = false ∨ is_raise (input_str args kwargs) = false →
  ∃ v w', execute_safely f n args kwargs w = (Ret v, w') ∧
    if accepts args kwargs then
      match settled f args kwargs (self w) with
      | Ret r => v = r
      | Raise e =>
          v = VStr (failure_message n e) ∧
          ∃ r, execution_history (self w')
               = record_into r (execution_history (self w))
            ∧ r_success r = false
            ∧ r_result r = Str.take 1000 (failure_message n e)
      end
    else v = VStr (rejection_message n).
Proof.
  intros Hstart.
  destruct (execute_safely_spec f n args kwargs w) as (o & w' & -> & H).
  assert (logger (self w) && is_raise (input_str args kwargs) = false)
    as Hno by (destruct Hstart as [-> | ->]; [done | apply andb_false_r]).
  rewrite Hno in H. unfold settled.
  destruct (accepts args kwargs); simpl in H.
  - destruct H as [_ H].
    destruct (attempt f args kwargs (self w)) as [v|e];
      [destruct (py_str v) as [s|e]|].
    + destruct H as [-> _]. by eexists _, _.
    + destruct H as (-> & t & ts & Hs). eexists _, _.
      split; [done|]. split; [done|]. rewrite Hs. by eexists.
    + destruct H as [-> Hs]. eexists _, _.
      split; [done|]. split; [done|]. rewrite Hs. by eexists.
  - destruct H as (-> & _). by eexists _, _.
Qed.

(** A tool that is still running when the alarm goes off: the call comes
    back with the failure string of the [TimeoutError], which names the
    tool and the number of seconds.  When that happens on the clock is not
    part of this model. *)
Lemma execute_safely_timeout f n args kwargs w :
  accepts args kwargs = true →
  f args kwargs (max_execution_time (self w)) = Overruns →
  (execute_safely f n args kwargs w).1 =
    Ret (VStr ("Tool " +:+ n +:+ " execution failed: "
               +:+ "Tool execution timed out after "
               +:+ pretty (max_execution_time (self w)) +:+ " seconds")).
Proof.
  intros Hacc Hrun.
  destruct (execute_safely_contained f n args kwargs w)
    as (v & w' & -> & H).
  { right. by apply accepts_renders. }
  rewrite Hacc in H. unfold settled, attempt in H. rewrite Hrun in H.
  by destruct H as [-> _].
Qed.

(** When the start log raises, the fault leaves [execute_safely]: the
    start log is called before the [try] statement is entered. *)
Lemma execute_safely_escapes f n args kwargs w e :
  logger (self w) = true →
  input_str args kwargs = Raise e →
  ∃ w', execute_safely f n args kwargs w = (Raise e, w')
    ∧ self w' = self w ∧ invoked w' = invoked w.
Proof.
  intros Hlog Hraise.
  destruct (execute_safely_spec f n args kwargs w) as (o & w' & -> & H).
  rewrite Hlog, Hraise in H. simpl in H.
  destruct H as ((e' & [= <-] & ->) & ? & ?). by exists w'.
Qed.


End Claims.

(** * More properties of the wrapper *)

Section Extras.
Context `{RT : Runtime}.

Lemma execute_safely_config f n args kwargs w :
  ∃ h, self (execute_safely f n args kwargs w).2 = with_history (self w) h.
Proof.
  destruct (execute_safely_spec f n args kwargs w) as (o & w' & -> & H).
  simpl.
  assert (self w = with_history (self w) (execution_history (self w)))
    as Hid by (by destruct (self w)).
  destruct (logger (self w) && is_raise (input_str args kwargs)).
  { destruct H as (_ & -> & _). eauto. }
  destruct (negb (accepts args kwargs)).
  { destruct H as (_ & -> & _). eauto. }
  destruct H as [_ H].
  destruct (attempt f args kwargs (self w)) as [v|e];
    [destruct (py_str v) as [s|e]|].
  - destruct H as [_ ->]. eauto.
  - destruct H as (_ & t & ts & ->). eauto.
  - destruct H as [_ ->]. eauto.
Qed.

(** X1: [_validate_input] says yes exactly to a call with at most 10
    positional and at most 20 keyword arguments whose rendering
    [str(args) + str(kwargs)] succeeds and contains none of the nine
    patterns; both bounds are inclusive. *)
Theorem validate_input_accepts_iff n args kwargs w :
  (_validate_input n args kwargs w).1 = Ret true ↔
    (length args ≤ 10)%nat ∧ (length kwargs ≤ 20)%nat ∧
    ∃ s, input_str args kwargs = Ret s ∧
      ∀ pattern, pattern ∈ dangerous_patterns →
        ¬ ∃ a b, s = a +:+ pattern +:+ b.
Proof.
  rewrite _validate_input_verdict.
  destruct (accepts args kwargs) eqn:Hacc.
  - split; [intros _|done].
    assert (¬ (accepts args kwargs = false)) as Hno by congruence.
    rewrite accepts_false_iff in Hno.
    split_and!.
    + destruct (decide (length args ≤ 10)%nat); [done|]. destruct Hno. lia.
    + destruct (decide (length kwargs ≤ 20)%nat); [done|]. destruct Hno. lia.
    + destruct (input_str args kwargs) as [s|e] eqn:Hs.
      * exists s. split; [done|]. intros p Hp Hocc. apply Hno.
        right; right; right. exists s, p. by rewrite contains_spec.
      * destruct Hno. auto.
  - split; [intros [=]|]. intros (Ha & Hk & s & Hs & Hclean).
    apply accepts_false_iff in Hacc.
    destruct Hacc as [?|[?|[Hr|(s' & p & Hs' & Hp & Hocc)]]]; try lia.
    + by rewrite Hs in Hr.
    + rewrite Hs in Hs'. injection Hs' as <-.
      destruct (Hclean p Hp). by apply contains_spec.
Qed.

(** X2: [get_recent_executions] returns a suffix of the history for every
    integer limit: the last [limit] records when the limit is positive
    (all of them when there are fewer), the whole history when it is 0,
    and the history without its first [-limit] records when it is
    negative. *)
Theorem get_recent_executions_any_limit (s : ToolSafetyWrapper) (limit : Z) :
  get_recent_executions s limit =
    drop (if 0 <? limit
          then (length (execution_history s) - Z.to_nat limit)%nat
          else Z.to_nat (- limit))
      (execution_history s).
Proof.
  unfold get_recent_executions.
  destruct (execution_history s) as [|r h] eqn:Hh.
  { by rewrite drop_nil. }
  rewrite <- Hh. clear Hh. generalize (execution_history s). intros l.
  unfold slice_from.
  destruct (Z.ltb_spec 0 limit) as [Hpos|Hle].
  - destruct (Z.ltb_spec (- limit) 0); [|lia]. f_equal. lia.
  - destruct (Z.ltb_spec (- limit) 0); [lia|].
    destruct (decide (- limit ≤ Z.of_nat (length l))) as [Hin|Hout].
    + by rewrite Z.min_l by lia.
    + rewrite Z.min_r by lia. rewrite Nat2Z.id.
      rewrite !drop_ge; [done|lia|lia].
Qed.

(** X3: the configuration of a wrapper is out of reach of everything but
    its setters, and the setters keep the floors: after any sequence of
    calls on a fresh wrapper the logger is as it was constructed,
    [max_execution_time] is at least 1 and [max_memory_usage] at least
    1024. *)
Theorem configuration_kept (enable_logging : bool) (cs : list call) :
  let s := self (run cs (fresh enable_logging)) in
  logger s = enable_logging
  ∧ 1 ≤ max_execution_time s
  ∧ 1024 ≤ max_memory_usage s.
Proof.
  cbv zeta.
  assert (∀ w, logger (self w) = enable_logging
               ∧ 1 ≤ max_execution_time (self w)
               ∧ 1024 ≤ max_memory_usage (self w) →
          logger (self (run cs w)) = enable_logging
          ∧ 1 ≤ max_execution_time (self (run cs w))
          ∧ 1024 ≤ max_memory_usage (self (run cs w))) as Hrun.
  { induction cs as [|c cs IH]; intros w Hw; [done|].
    simpl. apply IH. destruct Hw as (Hl & Ht & Hm).
    destruct c as [f n a k| | | |seconds|b]; simpl; try done.
    - destruct (execute_safely_config f n a k w) as [h ->]. done.
    - split_and!; [done|lia|done].
    - split_and!; [done|done|lia]. }
  apply Hrun. simpl. split_and!; [done|lia|lia].
Qed.




Lemma execute_safely_history_made f n args kwargs w :
  let h := execution_history (self w) in
  let h' := execution_history (self (execute_safely f n args kwargs w).2) in
  h' = h ∨
  ∃ id ok t ts text, h' = record_into (make_record id n ok t ts text) h.
Proof.
  cbv zeta.
  destruct (execute_safely_spec f n args kwargs w) as (o & w' & -> & H).
  simpl.
  destruct (logger (self w) && is_raise (input_str args kwargs)).
  { destruct H as (_ & -> & _). by left. }
  destruct (negb (accepts args kwargs)).
  { destruct H as (_ & -> & _). by left. }
  destruct H as [_ H]. right.
  destruct (attempt f args kwargs (self w)) as [v|e];
    [destruct (py_str v) as [s|e]|].
  - destruct H as [_ ->]. by eexists _, _, _, _, _.
  - destruct H as (_ & t & ts & ->). by eexists _, _, _, _, _.
  - destruct H as [_ ->]. by eexists _, _, _, _, _.
Qed.

(** X8: no record ever holds a result of more than 1000 characters: that
    is so of every record in the history after any sequence of calls on a
    fresh wrapper, whatever the tools returned or raised. *)
Theorem recorded_results_bounded (enable_logging : bool) (cs : list call) :
  Forall (λ r, (String.length (r_result r) ≤ 1000)%nat)
    (execution_history (self (run cs (fresh enable_logging)))).
Proof.
  assert (∀ w,
    Forall (λ r, (String.length (r_result r) ≤ 1000)%nat)
      (execution_history (self w)) →
    Forall (λ r, (String.length (r_result r) ≤ 1000)%nat)
      (execution_history (self (run cs w)))) as Hrun.
  { induction cs as [|c cs IH]; intros w Hw; [done|].
    simpl. apply IH.
    destruct c as [f n a k| | | | |]; simpl; try done.
    destruct (execute_safely_history_made f n a k w)
      as [-> | (id & ok & t & ts & text & ->)]; [done|].
    rewrite record_into_eq. apply Forall_drop, Forall_app.
    split; [done|]. apply Forall_singleton. exact (take_length 1000 text). }
  apply Hrun. simpl. constructor.
Qed.

(** *** Occurrences in renderings *)








(** *** The log *)

Lemma log_to_nil w : log_to w [] = w.
Proof. destruct w. unfold log_to. simpl. by rewrite app_nil_r. Qed.

Lemma log_to_log_to w a b : log_to (log_to w a) b = log_to w (a ++ b).
Proof. unfold log_to. simpl. by rewrite app_assoc. Qed.

Lemma _log_execution_error_lines id n msg w :
  _log_execution_error id n msg w =
    (Ret tt, log_to w (if logger (self w) then [error_line id n msg] else [])).
Proof.
  unfold _log_execution_error, mbind, M_bind, bind, get_self, emit, mret,
    M_ret, ret.
  destruct (logger (self w)); [done|]. by rewrite log_to_nil.
Qed.

Lemma _log_security_warning_lines n msg w :
  _log_security_warning n msg w =
    (Ret tt, log_to w (if logger (self w) then [warning_line n msg] else [])).
Proof.
  unfold _log_security_warning, mbind, M_bind, bind, get_self, emit, mret,
    M_ret, ret.
  destruct (logger (self w)); [done|]. by rewrite log_to_nil.
Qed.

Lemma _log_execution_start_lines id n args kwargs w :
  _log_execution_start id n args kwargs w =
    (if logger (self w) then
       match input_str args kwargs with
       | Raise e => Raise e
       | Ret _ => Ret tt
       end
     else Ret tt,
     log_to w (if logger (self w) then start_lines id n args kwargs else [])).
Proof.
  unfold _log_execution_start, start_lines, input_str, mbind, M_bind, bind,
    get_self, emit, eval, mret, M_ret, ret, log_to.
  destruct (logger (self w)); simpl; [|by rewrite app_nil_r; destruct w].
  destruct (str_tuple args); simpl; [|done].
  destruct (str_dict kwargs); simpl; [|done].
  by rewrite <- app_assoc.
Qed.

Lemma _log_execution_success_lines id n t result w :
  _log_execution_success id n t result w =
    (if logger (self w) then
       match py_str result with
       | Raise e => Raise e
       | Ret _ => Ret tt
       end
     else Ret tt,
     log_to w (if logger (self w) then success_lines id n t result else [])).
Proof.
  unfold _log_execution_success, success_lines, mbind, M_bind, bind,
    get_self, emit, eval, mret, M_ret, ret, log_to.
  destruct (logger (self w)); simpl; [|by rewrite app_nil_r; destruct w].
  destruct (py_str result); simpl; [|done].
  by rewrite <- app_assoc.
Qed.

Lemma scan_patterns_lines n s patterns w :
  scan_patterns n s patterns w =
    (Ret (forallb (λ pattern, negb (Str.contains pattern s)) patterns),
     log_to w
       (if logger (self w) then
          match List.find (λ pattern, Str.contains pattern s) patterns with
          | Some pattern =>
              [warning_line n ("Potentially dangerous input: " +:+ pattern)]
          | None => []
          end
        else [])).
Proof.
  induction patterns as [|p ps IH]; simpl.
  - unfold mret, M_ret, ret. by destruct (logger (self w)); rewrite log_to_nil.
  - destruct (Str.contains p s); simpl; [|done].
    unfold mbind, M_bind, bind. by rewrite _log_security_warning_lines.
Qed.

Lemma _validate_input_lines n args kwargs w :
  _validate_input n args kwargs w =
    (Ret (accepts args kwargs),
     log_to w (if logger (self w) then validation_warnings n args kwargs
               else [])).
Proof.
  unfold _validate_input, accepts, validation_warnings, try_except.
  destruct (10 <? length args)%nat.
  { unfold mret, M_ret, ret.
    by destruct (logger (self w)); rewrite log_to_nil. }
  destruct (20 <? length kwargs)%nat.
  { unfold mret, M_ret, ret.
    by destruct (logger (self w)); rewrite log_to_nil. }
  unfold mbind at 1, M_bind at 1, bind at 1, eval at 1.
  destruct (input_str args kwargs) as [s|e].
  - by rewrite scan_patterns_lines.
  - unfold mbind, M_bind, bind. by rewrite _log_security_warning_lines.
Qed.

Lemma handler_block_lines n id start e w :
  ∃ w', handler_block n id start e w = (Ret (VStr (failure_message n e)), w')
    ∧ logger (self w') = logger (self w)
    ∧ sink w' = sink w ++
        (if logger (self w) then [error_line id n (failure_message n e)]
         else []).
Proof.
  unfold handler_block.
  unfold mbind at 1, M_bind at 1, bind at 1, time_time at 1.
  unfold mbind at 1, M_bind at 1, bind at 1.
  rewrite _log_execution_error_lines.
  unfold mbind at 1, M_bind at 1, bind at 1.
  rewrite _record_execution_spec. simpl.
  eexists. split; [reflexivity|]. done.
Qed.

Lemma try_block_lines f n id start args kwargs w :
  sink (try_except (guarded_block f n id start args kwargs)
          (handler_block n id start) w).2 =
    sink w ++
    (if logger (self w) then
       validation_warnings n args kwargs ++
       if accepts args kwargs then
         match attempt f args kwargs (self w) with
         | Ret v =>
             success_lines id n (time_sub (clock (ticks w)) start) v ++
             match py_str v with
             | Ret _ => []
             | Raise e => [error_line id n (failure_message n e)]
             end
         | Raise e => [error_line id n (failure_message n e)]
         end
       else [error_line id n (rejection_message n)]
     else []).
Proof.
  unfold try_except, guarded_block.
  unfold mbind at 1, M_bind at 1, bind at 1.
  rewrite _validate_input_lines.
  destruct (accepts args kwargs); cbn [negb].
  - unfold mbind at 1, M_bind at 1, bind at 1.
    rewrite _execute_with_timeout_spec. simpl self.
    destruct (attempt f args kwargs (self w)) as [v|e].
    + unfold mbind at 1, M_bind at 1, bind at 1, time_time at 1.
      unfold mbind at 1, M_bind at 1, bind at 1.
      rewrite _log_execution_success_lines. simpl self. simpl ticks.
      destruct (logger (self w)) eqn:Hlog, (py_str v) as [s|e] eqn:Hv.
      * unfold mbind at 1, M_bind at 1, bind at 1.
        rewrite _record_execution_spec, Hv. simpl.
        unfold success_lines. rewrite Hv. by rewrite app_nil_r, <- !app_assoc.
      * match goal with |- context [handler_block n id start e ?x] =>
          destruct (handler_block_lines n id start e x)
            as (w' & -> & _ & Hsink)
        end.
        simpl. rewrite Hsink. simpl. rewrite Hlog. unfold success_lines. rewrite Hv.
        by rewrite <- !app_assoc.
      * unfold mbind at 1, M_bind at 1, bind at 1.
        rewrite _record_execution_spec, Hv. simpl. by rewrite !app_nil_r.
      * unfold mbind at 1, M_bind at 1, bind at 1.
        rewrite _record_execution_spec, Hv.
        match goal with |- context [handler_block n id start e ?x] =>
          destruct (handler_block_lines n id start e x)
            as (w' & -> & _ & Hsink)
        end.
        simpl. rewrite Hsink. simpl. rewrite Hlog. by rewrite !app_nil_r.
    + match goal with |- context [handler_block n id start e ?x] =>
        destruct (handler_block_lines n id start e x)
          as (w' & -> & _ & Hsink)
      end.
      simpl. rewrite Hsink. simpl. destruct (logger (self w)); by rewrite <- ?app_assoc, ?app_nil_r.
  - unfold mbind at 1, M_bind at 1, bind at 1.
    rewrite _log_execution_error_lines. simpl.
    destruct (logger (self w)); by rewrite <- ?app_assoc, ?app_nil_r.
Qed.

Lemma execute_safely_lines f n args kwargs w :
  sink (execute_safely f n args kwargs w).2 =
    sink w ++
    (if logger (self w) then execute_lines f n args kwargs w else []).
Proof.
  rewrite execute_safely_eq. unfold execute_lines.
  unfold mbind at 1, M_bind at 1, bind at 1, time_time at 1.
  unfold mbind at 1, M_bind at 1, bind at 1.
  rewrite _log_execution_start_lines. simpl self.
  destruct (logger (self w)) eqn:Hlog.
  - destruct (input_str args kwargs) as [s|e].
    + rewrite try_block_lines. simpl. rewrite Hlog. by rewrite <- app_assoc.
    + simpl. by rewrite app_nil_r.
  - rewrite try_block_lines. simpl. rewrite Hlog. by rewrite !app_nil_r.
Qed.

(** X12: a wrapper constructed with [enable_logging=False] is silent:
    whatever sequence of calls is made on it, with whatever tools and
    arguments, no line reaches the logger. *)
Theorem silent_without_logger (cs : list call) :
  sink (run cs (fresh false)) = [].
Proof.
  assert (∀ w, logger (self w) = false →
               logger (self (run cs w)) = false ∧ sink (run cs w) = sink w)
    as Hrun.
  { induction cs as [|c cs IH]; intros w Hw; [done|].
    simpl.
    assert (logger (self (step w c)) = false ∧ sink (step w c) = sink w)
      as [Hl Hs].
    { destruct c as [f n a k| | | | |]; simpl; try done.
      split.
      - by destruct (execute_safely_config f n a k w) as [h ->].
      - by rewrite execute_safely_lines, Hw, app_nil_r. }
    destruct (IH _ Hl) as [-> ->]. done. }
  by destruct (Hrun (fresh false) eq_refl) as [_ ->].
Qed.


End Extras.

(** * Properties of the tool adapter *)

Module AdapterFacts.
Import Adapter.

(** The entry of the sample tool is the one [describe] builds. *)
Example describe_echo_tool : describe echo_tool = Ret echo_info.
Proof. reflexivity. Qed.

Ltac run_m :=
  unfold mbind, AM_bind, mret, AM_ret, raise, try_except, get_adapted,
    get_tools, logger_call, set_tools, set_adapted_tools, set_logger in *.

(** As long as [self.logger] is not set, adapting a tool ends in the
    [AttributeError] of reading it, whatever the tool is: from the info
    line when the tool could be described, from the warning line of the
    handler in any case. *)
Lemma adapt_one_without_logger tool adapted w :
  logger (self w) = false →
  adapt_one tool adapted w = (Raise (attribute_error "logger"), w).
Proof.
  intros Hlog. unfold adapt_one, fall_back.
  destruct (describe tool); run_m; by rewrite ?Hlog.
Qed.

Lemma init_on_tools tool ts :
  __init__ (tool :: ts) blank =
    (Raise (attribute_error "logger"),
     {| self := {| tools := Some (tool :: ts); adapted_tools := None;
                   logger := false |};
        sink := [] |}).
Proof.
  unfold __init__, _adapt_tools. run_m. simpl.
  unfold mbind, AM_bind. by rewrite adapt_one_without_logger.
Qed.

(** X14: the constructor fails on every list of tools that is not empty.
    [__init__] calls [_adapt_tools] before it sets [self.logger], and
    [_adapt_tools] logs for the first tool: the fault of reading the
    missing attribute is raised once more by the handler, and leaves
    [__init__] with [adapted_tools] and [logger] never set and nothing
    logged. *)
Theorem constructor_raises_on_any_tool tool ts :
  __init__ (tool :: ts) blank =
    (Raise (Fault "'L3AGIToolAdapter' object has no attribute 'logger'"),
     {| self := {| tools := Some (tool :: ts); adapted_tools := None;
                   logger := false |};
        sink := [] |}).
Proof.
  unfold __init__, _adapt_tools. run_m. simpl.
  unfold mbind, AM_bind.
  by rewrite (adapt_one_without_logger tool []) by reflexivity.
Qed.

Lemma find_info_None adapted n :
  find_info adapted n = None ↔ n ∉ name <$> adapted.
Proof.
  induction adapted as [|i l IH]; simpl.
  - split; [intros _ H; inversion H|done].
  - rewrite not_elem_of_cons. case_decide; [|by rewrite IH; intuition].
    split; [done|]. by intros [? _].
Qed.

Lemma find_info_Some adapted n info :
  find_info adapted n = Some info ↔
  ∃ before after, adapted = before ++ info :: after
    ∧ name info = n ∧ n ∉ name <$> before.
Proof.
  induction adapted as [|i l IH]; simpl.
  - split; [done|]. by intros ([|??] & ? & ? & _).
  - case_decide as Hn.
    + split.
      * intros [= <-]. exists [], l. split_and!; [done..|]. by intros H; inversion H.
      * intros ([|b before] & after & Heq & Hname & Hnot).
        -- by injection Heq as <- _.
        -- injection Heq as <- _. destruct Hnot. simpl. rewrite Hn. left.
    + rewrite IH. split.
      * intros (before & after & -> & Hname & Hnot).
        exists (i :: before), after. split_and!; [done..|].
        simpl. rewrite not_elem_of_cons. split; [congruence|done].
      * intros ([|b before] & after & Heq & Hname & Hnot).
        -- injection Heq as -> _. done.
        -- injection Heq as <- ->. exists before, after.
           split_and!; [done..|]. simpl in Hnot.
           by apply not_elem_of_cons in Hnot as [_ ?].
Qed.

(** X15: an adapter that its constructor has returned holds no tool at
    all: [__init__] returns only for the empty list of tools, and on the
    adapter it leaves every name is unknown: [list_tools] is empty,
    [get_tool_info] and [get_tool_schema] return [None],
    [validate_tool_input] returns [False], and [execute_tool] raises the
    [ValueError] "Tool <name> not found". *)
Theorem constructed_adapter_is_empty ts w :
  __init__ ts blank = (Ret tt, w) →
  ts = []
  ∧ list_tools w = (Ret [], w)
  ∧ ∀ tool_name kwargs,
      get_tool_info tool_name w = (Ret None, w)
      ∧ get_tool_schema tool_name w = (Ret None, w)
      ∧ validate_tool_input tool_name kwargs w = (Ret false, w)
      ∧ execute_tool tool_name kwargs w
        = (Raise (Fault ("Tool " +:+ tool_name +:+ " not found")), w).
Proof.
  destruct ts as [|tool ts].
  - intros [= <-]. by split_and!.
  - by rewrite init_on_tools.
Qed.
Lemma get_tool_info_eq w adapted n :
  adapted_tools (self w) = Some adapted →
  get_tool_info n w = (Ret (find_info adapted n), w).
Proof. intros H. unfold get_tool_info. run_m. by rewrite H. Qed.

(** X16: lookups by name find the first adapted tool of that name and no
    other: [get_tool_info] returns [None] exactly for the names that
    [list_tools] does not list, and otherwise the entry before which no
    entry has that name; [get_tool_schema] returns a schema exactly then,
    and its name is the name asked for.  None of them changes the adapter
    or logs. *)
Theorem lookups_find_the_first_of_a_name w adapted tool_name :
  adapted_tools (self w) = Some adapted →
  list_tools w = (Ret (name <$> adapted), w)
  ∧ (∃ found, get_tool_info tool_name w = (Ret found, w)
       ∧ (found = None ↔ tool_name ∉ name <$> adapted)
       ∧ (∀ tool_info, found = Some tool_info ↔
            ∃ before after, adapted = before ++ tool_info :: after
              ∧ name tool_info = tool_name
              ∧ tool_name ∉ name <$> before)
       ∧ ∃ schema, get_tool_schema tool_name w = (Ret schema, w)
           ∧ (schema = None ↔ found = None)
           ∧ ∀ sc, schema = Some sc → schema_name sc = tool_name).
Proof.
  intros Hset. split.
  { unfold list_tools. run_m. by rewrite Hset. }
  exists (find_info adapted tool_name).
  split; [by apply get_tool_info_eq|].
  split; [apply find_info_None|]. split; [apply find_info_Some|].
  unfold get_tool_schema, mbind, AM_bind.
  rewrite (get_tool_info_eq _ _ _ Hset).
  destruct (find_info adapted tool_name) as [info|] eqn:Hfind.
  - eexists. split; [reflexivity|]. split; [done|].
    intros sc [= <-]. simpl.
    apply find_info_Some in Hfind as (? & ? & _ & Hname & _). done.
  - eexists. split; [reflexivity|]. done.
Qed.



Lemma all_given_spec required kwargs :
  all_given required kwargs = true ↔
  ∀ param, param ∈ required → param ∈ kwargs.*1.
Proof.
  induction required as [|p ps IH]; simpl.
  - split; [|done]. intros _ ? H. inversion H.
  - case_decide as Hp.
    + rewrite IH. split.
      * intros Hall q [->|Hq]%elem_of_cons; auto.
      * intros Hall q Hq. apply Hall. by right.
    + split; [done|]. intros Hall. destruct Hp. apply Hall. by left.
Qed.

(** X18: [validate_tool_input] says yes exactly when the name is that of
    an adapted tool and every name under ["required"] in the parameters of
    the first such tool is among the keyword arguments; a tool whose
    parameters have no ["required"] asks for nothing, and the values and
    any further keyword arguments are not looked at. *)
Theorem validate_tool_input_iff w adapted tool_name kwargs :
  adapted_tools (self w) = Some adapted →
  ∃ verdict found,
    validate_tool_input tool_name kwargs w = (Ret verdict, w)
    ∧ get_tool_info tool_name w = (Ret found, w)
    ∧ (verdict = true ↔
       ∃ tool_info, found = Some tool_info ∧
         ∀ param, param ∈ default [] (parameters tool_info !! "required") →
                  param ∈ kwargs.*1).
Proof.
  intros Hset. unfold validate_tool_input, mbind, AM_bind.
  rewrite (get_tool_info_eq _ _ _ Hset).
  destruct (find_info adapted tool_name) as [info|].
  - eexists _, _. split; [reflexivity|]. split; [reflexivity|].
    rewrite all_given_spec. split.
    + intros H. by exists info.
    + by intros (? & [= <-] & H).
  - eexists _, _. split; [reflexivity|]. split; [reflexivity|].
    split; [done|]. by intros (? & ? & _).
Qed.

(** X15 on the empty list of tools, the one the constructor accepts. *)
Lemma constructed_adapter_is_empty_witness :
  let w := {| self := {| tools := Some []; adapted_tools := Some [];
                         logger := true |};
              sink := [] |} in
  __init__ [] blank = (Ret tt, w)
  ∧ @nil l3agi_tool = []
  ∧ list_tools w = (Ret [], w)
  ∧ ∀ tool_name kwargs,
      get_tool_info tool_name w = (Ret None, w)
      ∧ get_tool_schema tool_name w = (Ret None, w)
      ∧ validate_tool_input tool_name kwargs w = (Ret false, w)
      ∧ execute_tool tool_name kwargs w
        = (Raise (Fault ("Tool " +:+ tool_name +:+ " not found")), w).
Proof.
  cbv zeta. split; [reflexivity|].
  apply (constructed_adapter_is_empty []). reflexivity.
Defined.

(** X16 on the adapter set by hand, asked for ["Echo"]. *)
Lemma lookups_find_the_first_of_a_name_witness :
  adapted_tools (self by_hand) = Some [echo_info]
  ∧ list_tools by_hand = (Ret (name <$> [echo_info]), by_hand)
  ∧ (∃ found, get_tool_info "Echo" by_hand = (Ret found, by_hand)
       ∧ (found = None ↔ "Echo" ∉ name <$> [echo_info])
       ∧ (∀ tool_info, found = Some tool_info ↔
            ∃ before after, [echo_info] = before ++ tool_info :: after
              ∧ name tool_info = "Echo"
              ∧ "Echo" ∉ name <$> before)
       ∧ ∃ schema, get_tool_schema "Echo" by_hand = (Ret schema, by_hand)
           ∧ (schema = None ↔ found = None)
           ∧ ∀ sc, schema = Some sc → schema_name sc = "Echo").
Proof.
  split; [reflexivity|].
  apply (lookups_find_the_first_of_a_name by_hand [echo_info] "Echo").
  reflexivity.
Defined.


(** X18 on the adapter set by hand, with the required argument given. *)
Lemma validate_tool_input_iff_witness :
  adapted_tools (self by_hand) = Some [echo_info]
  ∧ ∃ verdict found,
      validate_tool_input "Echo" [("input_text", VInt 7)] by_hand
      = (Ret verdict, by_hand)
      ∧ get_tool_info "Echo" by_hand = (Ret found, by_hand)
      ∧ (verdict = true ↔
         ∃ tool_info, found = Some tool_info ∧
           ∀ param,
             param ∈ default [] (parameters tool_info !! "required") →
             param ∈ [("input_text", VInt 7)].*1).
Proof.
  split; [reflexivity|].
  apply (validate_tool_input_iff by_hand [echo_info] "Echo"
           [("input_text", VInt 7)]).
  reflexivity.
Defined.

End AdapterFacts.

(** * The claims on concrete calls *)

Section Concrete.
#[local] Existing Instance q_runtime.

(** The scenario of the specification: [execute_safely(double, "Double", 5)]
    on a fresh wrapper returns 10 and leaves one success record with the
    result ["10"]. *)
Example double_five :
  let '(o, w) := execute_safely double "Double" [VInt 5] [] (fresh true) in
  o = Ret (VInt 10)
  ∧ (λ r, (r_tool_name r, r_success r, r_result r))
      <$> execution_history (self w) = [("Double", true, "10")]
  ∧ invoked w = 1%nat.
Proof. vm_compute. done. Qed.

(** 1500 calls in a row: the history holds the last 1000 of them, in
    the order they were made. *)
Example fifteen_hundred_calls :
  r_result <$> execution_history (self (run (doubles 1500) (fresh false)))
  = (λ i, pretty (2 * Z.of_nat i)) <$> seq 500 1000.
Proof. vm_compute. reflexivity. Qed.

(** C1 at a call the model decides against it: on a wrapper with a
    logger, a call with one argument whose [__repr__] raises does not
    return.  [_log_execution_start] renders the arguments for its debug
    line before the [try] statement is entered, so the fault of the
    rendering leaves [execute_safely]; the tool is not entered and nothing
    is recorded. *)
Theorem execute_safely_raises_from_start_log :
  let call := execute_safely double "Double" [unrenderable] [] (fresh true) in
  call.1 = Raise (Fault "__repr__ failed")
  ∧ length (execution_history (self call.2)) = 0%nat
  ∧ invoked call.2 = 0%nat.
Proof. cbv zeta. split_and!; by vm_compute. Qed.

(** C2 at a call the model decides against it: eleven positional
    arguments, the first with a [__repr__] that raises, on a wrapper with a
    logger.  The call does not come back with an error string: the fault
    of the rendering leaves [execute_safely] from the start log.  The tool
    is not entered. *)
Theorem oversized_call_raises_from_start_log :
  let args := unrenderable :: replicate 10 (VInt 1) in
  let call := execute_safely double "Double" args [] (fresh true) in
  length args = 11%nat
  ∧ call.1 = Raise (Fault "__repr__ failed")
  ∧ invoked call.2 = 0%nat.
Proof. cbv zeta. split_and!; by vm_compute. Qed.

(** The same eleven arguments on a wrapper without a logger are rejected
    with the error string. *)
Example oversized_call_without_logger :
  (execute_safely double "Double" (unrenderable :: replicate 10 (VInt 1)) []
     (fresh false)).1
  = Ret (VStr "Input validation failed for tool Double").
Proof. by vm_compute. Qed.



(** C7 does not hold of the empty history: the statistics of a fresh
    wrapper have no success rate at all, neither 0 nor any other value,
    and nothing but the record count. *)
Lemma stats_of_empty_history_have_no_success_rate :
  get_execution_stats (__init__ true) !! "success_rate" = None
  ∧ get_execution_stats (__init__ true) !! "total_executions"
    = Some (SInt 0)
  ∧ dom (get_execution_stats (__init__ true)) = {[ "total_executions" ]}.
Proof.
  change (get_execution_stats (__init__ true))
    with ({[ "total_executions" := SInt 0 ]} : gmap string stat).
  split_and!.
  - by apply lookup_singleton_ne.
  - apply lookup_singleton_eq.
  - apply dom_singleton_L.
Qed.

(** C8 at the limit the code gets wrong: with one record in the history,
    [get_recent_executions(0)] is [history[-0:]], the whole history, where
    the last min(0, 1) = 0 records are asked for. *)
Theorem get_recent_executions_zero_returns_all :
  let s := self (execute_safely double "Double" [VInt 5] [] (fresh false)).2 in
  length (execution_history s) = 1%nat
  ∧ get_recent_executions s 0 = execution_history s
  ∧ length (get_recent_executions s 0) = 1%nat
  ∧ (Z.to_nat 0 `min` length (execution_history s) = 0)%nat.
Proof.
  cbv zeta. split_and!.
  - by vm_compute.
  - apply get_recent_executions_zero.
  - by vm_compute.
  - done.
Qed.


End Concrete.

(** * The further properties on concrete calls *)

Section ConcreteExtras.
#[local] Existing Instance q_runtime.






End ConcreteExtras.
